(** * wazo-grandstream2 provisioning plugin (1.0.11.48, common.py)

    A shallow embedding of the plugin's device extractor, plugin
    associator and raw-config enrichment steps, with the properties the
    specification states about them.

    Python values are embedded as the tree type [value]; the raw config
    handed to [configure] is a finite map from keys to values, mutated in
    place by the enrichment steps, so every step is a state transformer
    that also says whether it returned or raised.  Nested dictionaries
    (sip lines, function keys) are kept as association lists in iteration
    order, because [_add_mpk] leaves its loop early and its result depends
    on that order. *)

From Stdlib Require Import Ascii.
From stdpp Require Import gmap strings list fin_maps pretty.

Set Warnings "-register-all".

Open Scope string_scope.
Open Scope Z_scope.
Open Scope list_scope.

(** ** Python values *)

(** The values a raw config or a device descriptor holds.  Python 2 [str]
    and [unicode] are both [VStr]: the plugin only compares ASCII
    literals, for which the two agree.  The raw config is a tree produced
    by the host server, so no two entries alias one object. *)
Inductive value : Type :=
| VNone
| VBool (b : bool)
| VInt (z : Z)
| VStr (s : string)
| VTuple (l : list value)
| VList (l : list value)
| VDict (d : list (string * value)).

Inductive exn : Type :=
| KeyError (k : value)
| TypeError
| ValueError
| AttributeError
| UnicodeDecodeError
| UnboundLocalError (name : string)
| RawConfigError (msg : string)
| Exception_ (msg : string).

Inductive outcome (A : Type) : Type :=
| Return (a : A)
| Raise (e : exn).
Arguments Return {A} a.
Arguments Raise {A} e.

Inductive level : Type := INFO | WARNING | ERROR.

(** One call of [logger.<level>(msg, *args)]. *)
Record log_entry : Type := Log { log_level : level; log_msg : value; log_args : list value }.

(** [bool(v)] *)
Definition truthy (v : value) : bool :=
  match v with
  | VNone => false
  | VBool b => b
  | VInt z => negb (z =? 0)
  | VStr s => negb (String.eqb s "")
  | VTuple l | VList l => match l with [] => false | _ => true end
  | VDict d => match d with [] => false | _ => true end
  end.

(** [hash(v)] succeeds: lists and dicts are unhashable, a tuple is
    hashable when its items are. *)
Fixpoint hashable (v : value) : bool :=
  match v with
  | VList _ | VDict _ => false
  | VTuple l => forallb hashable l
  | _ => true
  end.

(** [v == s] for a string literal [s]. *)
Definition eq_str (v : value) (s : string) : bool :=
  match v with
  | VStr s' => String.eqb s' s
  | _ => false
  end.

(** [d.get(k)] / [d[k]] on a nested dictionary: first binding of [k]. *)
Fixpoint assoc (k : string) (d : list (string * value)) : option value :=
  match d with
  | [] => None
  | (k', v) :: d' => if String.eqb k' k then Some v else assoc k d'
  end.

(** Lookup of a value in a table with string keys ([v in T], [T[v]]):
    [Raise TypeError] for an unhashable [v], [Return None] when [v] is
    not a key. *)
Definition table_find {A : Type} (T : list (string * A)) (v : value) : outcome (option A) :=
  if hashable v then
    match v with
    | VStr s => Return (snd <$> List.find (fun kv => String.eqb (fst kv) s) T)
    | _ => Return None
    end
  else Raise TypeError.

(** *** [int(x)] *)

Definition digit_of (a : ascii) : option Z :=
  let n := Z.of_nat (nat_of_ascii a) in
  if (48 <=? n) && (n <=? 57) then Some (n - 48) else None.

Fixpoint digits_to_Z (acc : Z) (s : string) : option Z :=
  match s with
  | EmptyString => Some acc
  | String a s' =>
      match digit_of a with
      | Some d => digits_to_Z (10 * acc + d) s'
      | None => None
      end
  end.

Fixpoint lstrip (s : string) : string :=
  match s with
  | String a s' => if Ascii.is_space a then lstrip s' else s
  | EmptyString => EmptyString
  end.

Definition strip (s : string) : string :=
  String.rev (lstrip (String.rev (lstrip s))).

Definition nonempty_digits (s : string) : option Z :=
  match s with
  | EmptyString => None
  | _ => digits_to_Z 0 s
  end.

(** [int(s)] for a string: surrounding whitespace, an optional sign and
    decimal digits; anything else is a [ValueError]. *)
Definition int_of_string (s : string) : option Z :=
  match strip s with
  | String "-"%char r => Z.opp <$> nonempty_digits r
  | String "+"%char r => nonempty_digits r
  | r => nonempty_digits r
  end.

Definition py_int (v : value) : outcome Z :=
  match v with
  | VInt z => Return z
  | VBool b => Return (if b then 1 else 0)
  | VStr s => match int_of_string s with Some z => Return z | None => Raise ValueError end
  | _ => Raise TypeError
  end.

(** [u'P{}'.format(n)] *)
Definition P_code (n : Z) : string := "P" +:+ pretty n.

(** ** Module-level tables *)

Definition TZ_NAME : list (string * string) :=
  [("Europe/Paris", "CET-1CEST-2,M3.5.0/02:00:00,M10.5.0/03:00:00")].

Definition LOCALE : list (string * string) :=
  [("de_DE", "de"); ("es_ES", "es"); ("fr_FR", "fr"); ("fr_CA", "fr");
   ("it_IT", "it"); ("nl_NL", "nl"); ("en_US", "en")].

Definition FUNCKEY_TYPES : list (string * Z) :=
  [("speeddial", 0); ("blf", 1); ("park", 9); ("default", 31); ("disabled", -1)].

Definition DTMF_MODES : list (string * (string * string * string)) :=
  [("RTP-in-band", ("Yes", "Yes", "No"));
   ("RTP-out-of-band", ("No", "Yes", "No"));
   ("SIP-INFO", ("No", "No", "Yes"))].

Definition SIP_TRANSPORTS : list (string * string) :=
  [("udp", "UDP"); ("tcp", "TCP"); ("tls", "TlsOrTcp")].

(** ** BaseGrandstreamPgAssociator *)

Section Associator.
(** The support levels are constants of the host server
    ([provd.devices.pgasso]); only their order matters here. *)
Variables IMPROBABLE_SUPPORT UNKNOWN_SUPPORT COMPLETE_SUPPORT FULL_SUPPORT : Z.

(** [self._models] and [self._version]. *)
Variable _models : list string.
Variable _version : string.

(** [model in self._models]; the model of a device may be absent
    ([None]), which is in no list of names. *)
Definition model_in (model : option string) (models : list string) : bool :=
  match model with
  | Some m => existsb (String.eqb m) models
  | None => false
  end.

(** [o == s] for a field of a device that may be absent. *)
Definition is_str (o : option string) (s : string) : bool :=
  match o with
  | Some s' => String.eqb s' s
  | None => false
  end.

(** The vendor, model and version come from [dev_info.get(...)]: each
    is a string or [None], and [None] has no [startswith]. *)
Definition _do_associate (vendor model version : option string) : outcome Z :=
  if is_str vendor "Grandstream" then
    if model_in model _models then
      match version with
      | Some v =>
          if String.prefix _version v then Return FULL_SUPPORT
          else Return COMPLETE_SUPPORT
      | None => Raise AttributeError
      end
    else Return UNKNOWN_SUPPORT
  else Return IMPROBABLE_SUPPORT.
End Associator.

(** ** Regular expressions of the extractor

    The fragment of Python's [re] the two patterns use: literals, greedy
    repetition of a character class, a greedy optional group, sequence and
    capturing groups, matched by backtracking from the start of the
    string ([re.match]). *)

Definition in_range (lo hi : nat) (a : ascii) : bool :=
  let n := nat_of_ascii a in (Nat.leb lo n) && (Nat.leb n hi).

(** [\w] of a byte pattern: [[a-zA-Z0-9_]] *)
Definition is_word (a : ascii) : bool :=
  in_range 48 57 a || in_range 65 90 a || in_range 97 122 a || Ascii.eqb a "_".

(** [[^ ]] *)
Definition not_space (a : ascii) : bool := negb (Ascii.eqb a " ").

(** [.] (no DOTALL): anything but a newline *)
Definition not_newline (a : ascii) : bool := negb (Ascii.eqb a "010").

Inductive regex : Type :=
| Lit (s : string)
| Star (c : ascii -> bool)
| Plus (c : ascii -> bool)
| Opt (r : regex)
| Seq (r1 r2 : regex)
| Group (r : regex).

Fixpoint strip_prefix (p s : string) : option string :=
  match p, s with
  | EmptyString, _ => Some s
  | String a p', String b s' => if Ascii.eqb a b then strip_prefix p' s' else None
  | String _ _, EmptyString => None
  end.

(** Greedy [c*] followed by the continuation [k]: the longest run first,
    then shorter ones. *)
Fixpoint star_match {R : Type} (c : ascii -> bool) (k : string -> option R) (s : string) : option R :=
  match s with
  | String a s' =>
      if c a then
        match star_match c k s' with
        | Some r => Some r
        | None => k s
        end
      else k s
  | EmptyString => k s
  end.

(** The text matched between [s] and its suffix [s']. *)
Definition consumed (s s' : string) : string :=
  String.substring 0 (String.length s - String.length s') s.

Fixpoint rmatch (r : regex) (s : string) (caps : list string)
    (k : string -> list string -> option (list string)) : option (list string) :=
  match r with
  | Lit l => match strip_prefix l s with Some s' => k s' caps | None => None end
  | Star c => star_match c (fun s' => k s' caps) s
  | Plus c =>
      match s with
      | String a s' => if c a then star_match c (fun s'' => k s'' caps) s' else None
      | EmptyString => None
      end
  | Opt r' => match rmatch r' s caps k with Some x => Some x | None => k s caps end
  | Seq r1 r2 => rmatch r1 s caps (fun s' caps' => rmatch r2 s' caps' k)
  | Group r' => rmatch r' s caps (fun s' caps' => k s' (caps' ++ [consumed s s']))
  end.

(** [r.match(s)]: [None] for no match, else [m.groups()]. *)
Definition re_match (r : regex) (s : string) : option (list string) :=
  rmatch r s [] (fun _ caps => Some caps).

Fixpoint seq_of (rs : list regex) : regex :=
  match rs with
  | [] => Lit ""
  | [r] => r
  | r :: rs' => Seq r (seq_of rs')
  end.

(** [^Grandstream Model HW (\w+)(?: V[^ ]+)? SW ([^ ]+) DevId ([^ ]+)] *)
Definition UA_REGEX_HW : regex :=
  seq_of [Lit "Grandstream Model HW "; Group (Plus is_word);
          Opt (Seq (Lit " V") (Plus not_space));
          Lit " SW "; Group (Plus not_space);
          Lit " DevId "; Group (Plus not_space)].

(** [^Grandstream (GXP2000) .*:([^ ]+)\) DevId ([^ ]+)] *)
Definition UA_REGEX_GXP2000 : regex :=
  seq_of [Lit "Grandstream "; Group (Lit "GXP2000"); Lit " "; Star not_newline;
          Lit ":"; Group (Plus not_space); Lit ") DevId "; Group (Plus not_space)].

Definition _UA_REGEX_LIST : list regex := [UA_REGEX_HW; UA_REGEX_GXP2000].

(** ** BaseGrandstreamHTTPDeviceInfoExtractor *)

(** [s.decode('ascii')]: a byte above 127 is a [UnicodeDecodeError]. *)
Definition is_ascii (a : ascii) : bool := Nat.ltb (nat_of_ascii a) 128.

Fixpoint all_chars (c : ascii -> bool) (s : string) : bool :=
  match s with
  | EmptyString => true
  | String a s' => c a && all_chars c s'
  end.

Definition all_ascii (s : string) : bool := all_chars is_ascii s.

Definition decode_ascii (s : string) : option string :=
  if all_ascii s then Some s else None.

Definition dquote : string := String (ascii_of_nat 34) EmptyString.

Definition mac_warning (raw_mac : string) : log_entry :=
  Log WARNING
      (VStr ("Could not normalize MAC address " +:+ dquote +:+ "%s" +:+ dquote +:+ ": %s"))
      [VStr raw_mac].

Definition dev_info (model version mac : string) : gmap string value :=
  <["vendor" := VStr "Grandstream"]>
    (<["model" := VStr model]>
       (<["version" := VStr version]>
          (<["mac" := VStr mac]> ∅))).

Section Extractor.
(** [provd.util.norm_mac], a helper of the host server: [None] stands
    for the [ValueError] it raises on a malformed address. *)
Variable norm_mac : string -> option string.

(** The result of one pass of the loop body. *)
Inductive attempt : Type :=
| Found (d : gmap string value)
| Next (l : list log_entry)
| Failed (e : exn).

Definition try_regex (r : regex) (ua : string) : attempt :=
  match re_match r ua with
  | None => Next []
  | Some [raw_model; raw_version; raw_mac] =>
      (* try: mac = norm_mac(raw_mac.decode('ascii')); UnicodeDecodeError
         is a ValueError, so both failures reach the except clause *)
      match decode_ascii raw_mac ≫= norm_mac with
      | None => Next [mac_warning raw_mac]
      | Some mac =>
          match decode_ascii raw_model, decode_ascii raw_version with
          | Some model, Some version => Found (dev_info model version mac)
          | _, _ => Failed UnicodeDecodeError
          end
      end
  | Some _ => Failed ValueError
  end.

Fixpoint extract_loop (rs : list regex) (ua : string) : outcome (option (gmap string value)) * list log_entry :=
  match rs with
  | [] => (Return None, [])
  | r :: rs' =>
      match try_regex r ua with
      | Found d => (Return (Some d), [])
      | Failed e => (Raise e, [])
      | Next l => let '(o, l') := extract_loop rs' ua in (o, l ++ l')
      end
  end.

Definition _extract_from_ua (ua : string) : outcome (option (gmap string value)) * list log_entry :=
  extract_loop _UA_REGEX_LIST ua.

(** [request.getHeader('User-Agent')] is [None] or a byte string. *)
Definition _do_extract (ua : option string) : outcome (option (gmap string value)) * list log_entry :=
  match ua with
  | Some s => if truthy (VStr s) then _extract_from_ua s else (Return None, [])
  | None => (Return None, [])
  end.
End Extractor.

(** An instance of [norm_mac] for addresses written as twelve
    hexadecimal digits, the form the phones send: lower case, colons
    between the bytes.  Any other spelling is rejected. *)
Definition is_hex (a : ascii) : bool :=
  in_range 48 57 a || in_range 65 70 a || in_range 97 102 a.

Definition lower (a : ascii) : ascii :=
  if in_range 65 90 a then ascii_of_nat (nat_of_ascii a + 32) else a.

Fixpoint colon_pairs (s : string) : string :=
  match s with
  | String a (String b EmptyString) => String (lower a) (String (lower b) EmptyString)
  | String a (String b s') => String (lower a) (String (lower b) (String ":" (colon_pairs s')))
  | _ => s
  end.

Definition norm_mac_hex12 (s : string) : option string :=
  if all_chars is_hex s && Nat.eqb (String.length s) 12 then Some (colon_pairs s) else None.

(** ** State of a plugin call

    [configure] receives the raw config by reference and every step
    mutates it in place, so what a step has written stays written when a
    later statement raises: a computation returns its outcome together
    with the state it leaves behind. *)

Record state : Type := State { raw_config : gmap string value; log : list log_entry }.

Definition M (A : Type) : Type := state -> outcome A * state.

Definition ret {A : Type} (a : A) : M A := fun st => (Return a, st).

Definition raise {A : Type} (e : exn) : M A := fun st => (Raise e, st).

Definition bind {A B : Type} (m : M A) (f : A -> M B) : M B :=
  fun st =>
    match m st with
    | (Return a, st') => f a st'
    | (Raise e, st') => (Raise e, st')
    end.

Declare Scope py_scope.
Delimit Scope py_scope with py.
Notation "x <- c ;; k" := (bind c (fun x => k))
  (at level 100, c at next level, right associativity) : py_scope.
Notation "c ;; k" := (bind c (fun _ => k))
  (at level 100, right associativity) : py_scope.

Definition lift {A : Type} (o : outcome A) : M A := fun st => (o, st).

(** [logger.info(...)], [logger.warning(...)], [logger.error(...)] *)
Definition logger (lv : level) (msg : value) (args : list value) : M unit :=
  fun st => (Return tt, State (raw_config st) (log st ++ [Log lv msg args])).

(** [raw_config.get(k)] as an option, [k in raw_config] being [is_Some]. *)
Definition rc_lookup (k : string) : M (option value) :=
  fun st => (Return (raw_config st !! k), st).

(** [raw_config.get(k)] *)
Definition rc_get (k : string) : M value :=
  fun st => (Return (default VNone (raw_config st !! k)), st).

(** [raw_config[k]] *)
Definition rc_item (k : string) : M value :=
  fun st =>
    match raw_config st !! k with
    | Some v => (Return v, st)
    | None => (Raise (KeyError (VStr k)), st)
    end.

(** [raw_config[k] = v] *)
Definition rc_set (k : string) (v : value) : M unit :=
  fun st => (Return tt, State (<[k := v]> (raw_config st)) (log st)).

(** [T[v]] *)
Definition table_item {A : Type} (T : list (string * A)) (v : value) : outcome A :=
  match table_find T v with
  | Return (Some a) => Return a
  | Return None => Raise (KeyError v)
  | Raise e => Raise e
  end.

(** [d[k] = v] on a nested dictionary: the binding of [k] is replaced
    where it stands, a new key goes to the end. *)
Fixpoint assoc_set (k : string) (v : value) (d : list (string * value)) : list (string * value) :=
  match d with
  | [] => [(k, v)]
  | (k', v') :: d' => if String.eqb k' k then (k', v) :: d' else (k', v') :: assoc_set k v d'
  end.

(** [s.split(sep)] for a one-character separator. *)
Fixpoint split_on (sep : ascii) (s : string) : list string :=
  match s with
  | EmptyString => [EmptyString]
  | String a s' =>
      if Ascii.eqb a sep then EmptyString :: split_on sep s'
      else match split_on sep s' with
           | p :: ps => String a p :: ps
           | [] => [String a EmptyString]
           end
  end.

(** ** BaseGrandstreamPlugin: checks and enrichment steps *)

Open Scope py_scope.

Definition _check_config : M unit :=
  port <- rc_lookup "http_port" ;;
  match port with
  | Some _ => ret tt
  | None => raise (RawConfigError "only support configuration via HTTP")
  end.

Definition _check_device (device : gmap string value) : M unit :=
  match device !! "mac" with
  | Some _ => ret tt
  | None => raise (Exception_ "MAC address needed for device configuration")
  end.

(** The loop of [_check_lines_password] over the lines in iteration
    order: the lines as the loop leaves them, and the exception that
    stopped it, if any.  A line that is not a dictionary cannot be
    indexed by a string ([TypeError]). *)
Fixpoint check_lines (ls : list (string * value)) : list (string * value) * option exn :=
  match ls with
  | [] => ([], None)
  | (k, line) :: ls' =>
      match line with
      | VDict d =>
          match assoc "password" d with
          | Some p =>
              let line' :=
                if eq_str p "autoprov" then VDict (assoc_set "password" (VStr "") d)
                else line in
              let '(r, e) := check_lines ls' in ((k, line') :: r, e)
          | None => ((k, line) :: ls', Some (KeyError (VStr "password")))
          end
      | _ => ((k, line) :: ls', Some TypeError)
      end
  end.

Definition _check_lines_password : M unit :=
  sip_lines <- rc_item "sip_lines" ;;
  match sip_lines with
  | VDict ls =>
      let '(ls', e) := check_lines ls in
      rc_set "sip_lines" (VDict ls') ;;
      match e with
      | Some e => raise e
      | None => ret tt
      end
  | _ => raise AttributeError
  end.

Definition _add_timezone : M unit :=
  tz <- rc_lookup "timezone" ;;
  known <- match tz with
           | Some v => lift (table_find TZ_NAME v)
           | None => ret None
           end ;;
  match known with
  | Some name => rc_set "XX_timezone" (VStr name)
  | None =>
      paris <- lift (table_item TZ_NAME (VStr "Europe/Paris")) ;;
      rc_set "timezone" (VStr paris)
  end.

Definition _add_locale : M unit :=
  locale <- rc_get "locale" ;;
  code <- lift (table_find LOCALE locale) ;;
  match code with
  | Some c => rc_set "XX_locale" (VStr c)
  | None => ret tt
  end.

(** The body of the loop of [_add_fkeys] is a bare string literal, so the
    loop only needs [raw_config[u'funckeys']] to have [iteritems]. *)
Definition _add_fkeys : M unit :=
  funckeys <- rc_item "funckeys" ;;
  match funckeys with
  | VDict _ => rc_set "XX_fkeys" (VList [])
  | _ => raise AttributeError
  end.

(** Everything between [lines = []] and the final assignment of
    [_add_v2_fkeys] is inside a string literal. *)
Definition _add_v2_fkeys (model : value) : M unit :=
  rc_set "XX_v2_fkeys" (VList []).

Fixpoint set_dns_parts (part_nb : Z) (parts : list string) : M unit :=
  match parts with
  | [] => ret tt
  | part :: parts' =>
      rc_set ("XX_dns_" +:+ pretty part_nb) (VStr part) ;;
      set_dns_parts (part_nb + 1) parts'
  end.

Definition _add_dns : M unit :=
  enabled <- rc_get "dns_enabled" ;;
  if truthy enabled then
    dns_ip <- rc_item "dns_ip" ;;
    match dns_ip with
    | VStr s => set_dns_parts 1 (split_on "." s)
    | _ => raise AttributeError
    end
  else ret tt.

Definition _add_dtmf_mode : M unit :=
  mode <- rc_get "sip_dtmf_mode" ;;
  if truthy mode then
    mode <- rc_item "sip_dtmf_mode" ;;
    dtmf_info <- lift (table_item DTMF_MODES mode) ;;
    rc_set "XX_dtmf_in_audio" (VStr (dtmf_info.1.1)) ;;
    rc_set "XX_dtmf_in_rtp" (VStr (dtmf_info.1.2)) ;;
    rc_set "XX_dtmf_in_sip" (VStr (dtmf_info.2))
  else ret tt.

Definition _add_sip_transport : M unit :=
  sip_transport <- rc_get "sip_transport" ;;
  name <- lift (table_find SIP_TRANSPORTS sip_transport) ;;
  match name with
  | Some n => rc_set "XX_sip_transport" (VStr n)
  | None => ret tt
  end.

(** *** [_add_mpk] *)

(** The locals of [_add_mpk] that live across iterations: [lines], and
    the four ids ([key_mode_id], [account_id], [name_id], [value_id]),
    unbound until a branch assigns them. *)
Record mpk_locals : Type :=
  MpkLocals { lines : list value; ids : option (Z * Z * Z * Z) }.

Inductive control : Type := Continue_ | Break_.

(** [d[k]] for a value [d] indexed by a string. *)
Definition dict_item (d : value) (k : string) : outcome value :=
  match d with
  | VDict l => match assoc k l with Some v => Return v | None => Raise (KeyError (VStr k)) end
  | _ => Raise TypeError
  end.

(** [k in d] *)
Definition dict_has (d : value) (k : string) : bool :=
  match d with
  | VDict l => bool_decide (is_Some (assoc k l))
  | _ => false
  end.

(** The ids assigned for key [i] on GXP2160 and GXP2130. *)
Definition ids_2160 (i : Z) (old : option (Z * Z * Z * Z)) : option (Z * Z * Z * Z) :=
  if i <? 8 then
    let step := i - 1 in
    Some (323 + step, 301 + step, 302 + step, 303 + step)
  else if (8 <=? i) && (i <=? 18) then
    let step := (i - 8) * 4 in
    Some (353 + step, 354 + step, 355 + step, 356 + step)
  else if 19 <=? i then
    let step := (i - 19) * 4 in
    Some (1440 + step, 1441 + step, 1442 + step, 1443 + step)
  else old.

(** The ids assigned for key [i] on GXP2170 and GXP2140. *)
Definition ids_2170 (i : Z) : Z * Z * Z * Z :=
  let step := 5 * i - 5 in
  (23000 + step, 23001 + step, 23002 + step, 23003 + step).

(** The model dispatch at the top of the loop body: [Some c] when the
    iteration ends there with [continue] or [break], and the ids as the
    branch leaves them. *)
Definition mpk_dispatch (model : value) (i : Z) (old : option (Z * Z * Z * Z))
    : M (option control * option (Z * Z * Z * Z)) :=
  if eq_str model "GXP2160" || eq_str model "GXP2130" then
    if eq_str model "GXP2160" && (24 <? i) then ret (Some Break_, old)
    else if eq_str model "GXP2130" && (8 <? i) then ret (Some Break_, old)
    else ret (None, ids_2160 i old)
  else if eq_str model "GXP2170" || eq_str model "GXP2140" then
    ret (None, Some (ids_2170 i))
  else if eq_str model "GXP2135" then ret (Some Continue_, old)
  else
    logger ERROR (VStr ("Unable to generate BLF for model " +:+ dquote +:+ "%s" +:+ dquote)) [model] ;;
    ret (None, old).

Definition pair_of (code : string) (v : value) : value := VTuple [VStr code; v].

(** The rest of the loop body, from [funckey_type = funckey_dict[u'type']]. *)
Definition mpk_emit (funckey_dict : value) (loc : mpk_locals) : M (control * mpk_locals) :=
  funckey_type <- lift (dict_item funckey_dict "type") ;;
  type_code <- lift (table_find FUNCKEY_TYPES funckey_type) ;;
  match type_code with
  | None =>
      logger INFO (VStr "Unsupported funckey type: %s") [funckey_type] ;;
      ret (Continue_, loc)
  | Some code =>
      match ids loc with
      | None => raise (UnboundLocalError "key_mode_id")
      | Some (key_mode_id, account_id, name_id, value_id) =>
          let lines1 := lines loc ++ [pair_of (P_code key_mode_id) (VInt code)] in
          line <- lift (dict_item funckey_dict "line") ;;
          n <- lift (py_int line) ;;
          let lines2 := lines1 ++ [pair_of (P_code account_id) (VInt (n - 1))] in
          lines3 <- (if dict_has funckey_dict "label" then
                       label <- lift (dict_item funckey_dict "label") ;;
                       ret (lines2 ++ [pair_of (P_code name_id) label])
                     else ret lines2) ;;
          v <- lift (dict_item funckey_dict "value") ;;
          ret (Continue_, MpkLocals (lines3 ++ [pair_of (P_code value_id) v]) (ids loc))
      end
  end.

Definition mpk_step (model : value) (item : string * value) (loc : mpk_locals)
    : M (control * mpk_locals) :=
  i_funckey_no <- lift (py_int (VStr item.1)) ;;
  d <- mpk_dispatch model i_funckey_no (ids loc) ;;
  match d.1 with
  | Some c => ret (c, MpkLocals (lines loc) d.2)
  | None => mpk_emit item.2 (MpkLocals (lines loc) d.2)
  end.

Fixpoint mpk_loop (model : value) (items : list (string * value)) (loc : mpk_locals)
    : M mpk_locals :=
  match items with
  | [] => ret loc
  | item :: items' =>
      r <- mpk_step model item loc ;;
      match r.1 with
      | Continue_ => mpk_loop model items' r.2
      | Break_ => ret r.2
      end
  end.

Definition _add_mpk (model : value) : M unit :=
  logger INFO model [] ;;
  funckeys <- rc_item "funckeys" ;;
  match funckeys with
  | VDict items =>
      loc <- mpk_loop model items (MpkLocals [] None) ;;
      rc_set "XX_mpk" (VList (lines loc))
  | _ => raise AttributeError
  end.

(** *** [configure] *)

(** [os.path.join(a, b)] on POSIX. *)
Definition path_join (a b : string) : string :=
  if String.prefix "/" b then b
  else if String.eqb a "" || String.prefix "/" (String.rev a) then a +:+ b
  else a +:+ "/" +:+ b.

(** The enrichment steps of [configure], in its order. *)
Definition enrich (model : value) : M unit :=
  _check_lines_password ;;
  _add_sip_transport ;;
  _add_timezone ;;
  _add_locale ;;
  _add_dtmf_mode ;;
  _add_fkeys ;;
  _add_mpk model ;;
  _add_v2_fkeys model ;;
  _add_dns.

Section Plugin.
(** Helpers of the host server: [provd.util.format_mac] with
    [separator=''] and [uppercase=False], the template lookup and dump
    of [TemplatePluginHelper], and the plugin's [_tftpboot_dir]. *)
Variable format_mac : value -> outcome string.
Variable get_dev_template : string -> gmap string value -> outcome value.
Variable dump : value -> gmap string value -> string -> outcome unit.
Variable _tftpboot_dir : string.

Definition _dev_specific_filename (device : gmap string value) : outcome string :=
  match device !! "mac" with
  | None => Raise (KeyError (VStr "mac"))
  | Some mac =>
      match format_mac mac with
      | Return fmted_mac => Return ("cfg" +:+ fmted_mac +:+ ".xml")
      | Raise e => Raise e
      end
  end.

Definition render (device : gmap string value) : M unit :=
  filename <- lift (_dev_specific_filename device) ;;
  tpl <- lift (get_dev_template filename device) ;;
  logger INFO tpl [] ;;
  let path := path_join _tftpboot_dir filename in
  (fun st =>
     (logger INFO (VDict (map_to_list (raw_config st))) [] ;;
      lift (dump tpl (raw_config st) path)) st).

Definition configure (device : gmap string value) : M unit :=
  _check_config ;;
  _check_device device ;;
  enrich (default VNone (device !! "model")) ;;
  render device.
End Plugin.

Close Scope py_scope.

(** ** The function-key mapping as the specification words it

    These definitions follow the sentences of the specification, not the
    code; the theorems about [_add_mpk] compare the two. *)

(** [FUNCKEY_TYPES.get(t)] for a string [t]. *)
Definition funckey_code (t : string) : option Z :=
  snd <$> List.find (fun kv => String.eqb (fst kv) t) FUNCKEY_TYPES.

(** The documented ids (key mode, account, label, value) of key [i]. *)
Definition claimed_ids (model : string) (i : Z) : Z * Z * Z * Z :=
  if String.eqb model "GXP2160" || String.eqb model "GXP2130" then
    if i <=? 7 then (323 + (i - 1), 301 + (i - 1), 302 + (i - 1), 303 + (i - 1))
    else if i <=? 18 then
      (353 + 4 * (i - 8), 354 + 4 * (i - 8), 355 + 4 * (i - 8), 356 + 4 * (i - 8))
    else
      (1440 + 4 * (i - 19), 1441 + 4 * (i - 19), 1442 + 4 * (i - 19), 1443 + 4 * (i - 19))
  else
    (23000 + 5 * (i - 1), 23001 + 5 * (i - 1), 23002 + 5 * (i - 1), 23003 + 5 * (i - 1)).

(** An index past the keys of the model. *)
Definition out_of_range (model : string) (i : Z) : bool :=
  (String.eqb model "GXP2160" && (24 <? i)) || (String.eqb model "GXP2130" && (8 <? i)).

(** A 1-based index within the keys of the model. *)
Definition in_supported_range (model : string) (i : Z) : bool :=
  (1 <=? i) && negb (out_of_range model i).

Definition item_index (item : string * value) : option Z := int_of_string item.1.

Definition type_code_of (d : list (string * value)) : option Z :=
  match assoc "type" d with
  | Some (VStr t) => funckey_code t
  | _ => None
  end.

(** The pairs one entry of [funckeys] contributes: none for an index out
    of range or a type that is not supported, else key mode, account, the
    label when the entry has one, and value. *)
Definition claimed_pairs (model : string) (item : string * value) : list value :=
  match item_index item, item.2 with
  | Some i, VDict d =>
      match type_code_of d, assoc "line" d, assoc "value" d with
      | Some code, Some line, Some v =>
          match py_int line with
          | Return n =>
              if in_supported_range model i then
                let '(key_mode, account, label, val) := claimed_ids model i in
                [pair_of (P_code key_mode) (VInt code); pair_of (P_code account) (VInt (n - 1))]
                ++ match assoc "label" d with
                   | Some l => [pair_of (P_code label) l]
                   | None => []
                   end
                ++ [pair_of (P_code val) v]
              else []
          | Raise _ => []
          end
      | _, _, _ => []
      end
  | _, _ => []
  end.

(** An entry [_add_mpk] can process: an integer key, a dictionary with a
    hashable [type] and, when the type is supported, a [line] that
    [int] accepts and a [value]. *)
Definition well_formed (item : string * value) : Prop :=
  exists i d ty,
    item_index item = Some i /\ item.2 = VDict d /\
    assoc "type" d = Some ty /\ hashable ty = true /\
    (is_Some (type_code_of d) ->
     exists line n v, assoc "line" d = Some line /\ py_int line = Return n /\
                      assoc "value" d = Some v).

(** None of the five models [_add_mpk] names. *)
Definition unknown_model (model : value) : Prop :=
  eq_str model "GXP2130" = false /\ eq_str model "GXP2135" = false /\
  eq_str model "GXP2140" = false /\ eq_str model "GXP2160" = false /\
  eq_str model "GXP2170" = false.

Definition blf_key (line target : string) : value :=
  VDict [("type", VStr "blf"); ("line", VStr line); ("value", VStr target)].

Definition labelled_key (type line label target : string) : value :=
  VDict [("type", VStr type); ("line", VStr line); ("label", VStr label);
         ("value", VStr target)].

(** ** Footprints of the enrichment steps *)

(** The six steps the specification calls independent. *)
Inductive step : Type :=
| CheckLinesPassword
| AddSipTransport
| AddTimezone
| AddLocale
| AddDtmfMode
| AddDns.

#[global] Instance step_eq_dec : EqDecision step.
Proof. solve_decision. Defined.

Definition run_step (s : step) : M unit :=
  match s with
  | CheckLinesPassword => _check_lines_password
  | AddSipTransport => _add_sip_transport
  | AddTimezone => _add_timezone
  | AddLocale => _add_locale
  | AddDtmfMode => _add_dtmf_mode
  | AddDns => _add_dns
  end.

Definition one_of (keys : list string) (k : string) : bool :=
  existsb (String.eqb k) keys.

(** The keys a step reads or writes. *)
Definition footprint (s : step) (k : string) : bool :=
  match s with
  | CheckLinesPassword => one_of ["sip_lines"] k
  | AddSipTransport => one_of ["sip_transport"; "XX_sip_transport"] k
  | AddTimezone => one_of ["timezone"; "XX_timezone"] k
  | AddLocale => one_of ["locale"; "XX_locale"] k
  | AddDtmfMode =>
      one_of ["sip_dtmf_mode"; "XX_dtmf_in_audio"; "XX_dtmf_in_rtp"; "XX_dtmf_in_sip"] k
  | AddDns => one_of ["dns_enabled"; "dns_ip"] k || String.prefix "XX_dns_" k
  end.

(** The mapping a run hands over when it returns; none when it raises. *)
Definition completed {A : Type} (r : outcome A * state) : option (gmap string value) :=
  match r.1 with
  | Return _ => Some (raw_config r.2)
  | Raise _ => None
  end.

(** Two states with the same entries under the keys of [D]. *)
Definition agree (D : string -> bool) (st1 st2 : state) : Prop :=
  forall k, D k = true -> raw_config st1 !! k = raw_config st2 !! k.

(** [m] leaves every key outside [W] as it found it. *)
Definition frames {A : Type} (W : string -> bool) (m : M A) : Prop :=
  forall st k, W k = false -> raw_config (m st).2 !! k = raw_config st !! k.

(** What [m] does, and what it leaves under the keys of [D], depends on
    the entries under the keys of [D] only. *)
Definition determined {A : Type} (D : string -> bool) (m : M A) : Prop :=
  forall st1 st2, agree D st1 st2 ->
    (m st1).1 = (m st2).1 /\ agree D (m st1).2 (m st2).2.

(** The keys the steps after [_check_lines_password] may write. *)
Definition derived_key (k : string) : bool :=
  String.eqb k "timezone" || String.prefix "XX_" k.

(** A sip line before and after the enrichment: untouched, or with its
    [autoprov] password blanked and every other entry as it was. *)
Definition line_kept (line line' : value) : Prop :=
  line' = line \/
  exists d d', line = VDict d /\ line' = VDict d' /\
    assoc "password" d = Some (VStr "autoprov") /\
    assoc "password" d' = Some (VStr "") /\
    forall k, k <> "password" -> assoc k d' = assoc k d.

Definition lines_kept (ls ls' : list (string * value)) : Prop :=
  Forall2 (fun kv kv' => kv'.1 = kv.1 /\ line_kept kv.2 kv'.2) ls ls'.


(** A sip line [_check_lines_password] can read. *)
Definition has_password (kv : string * value) : Prop :=
  exists d, kv.2 = VDict d /\ is_Some (assoc "password" d).

(** ** Sample inputs *)

Definition ua_gxp2160 : string :=
  "Grandstream Model HW GXP2160 SW 1.0.4.23 DevId 000b8240d55c".

Definition ua_gxp2000 : string :=
  "Grandstream GXP2000 (gxp2000e.bin:1.2.5.3/boot55e.bin:1.1.6.9) DevId 000b822726c8".

(** A User-Agent whose version ends with the byte 0xE9. *)
Definition ua_latin1_version : string :=
  "Grandstream Model HW GXP2160 SW 1.0.4.23" +:+
  String (ascii_of_nat 233) " DevId 000b8240d55c".

Definition ua_short_mac : string := "Grandstream Model HW GXP2160 SW 1.0.4.23 DevId 000b82".

Definition sample_device : gmap string value :=
  <["mac" := VStr "00:0b:82:40:d5:5c"]> (<["model" := VStr "GXP2160"]> ∅).

(** A raw config with the two mappings the steps index and none of the
    optional settings. *)
Definition minimal_config : gmap string value :=
  <["http_port" := VInt 8667]>
    (<["sip_lines" := VDict [("1", VDict [("password", VStr "secret")])]]>
       (<["funckeys" := VDict []]> ∅)).

(** ** The rest of the plugin *)

(** [_format_code]: a code below ten is padded with a zero. *)
Definition _format_code (code : Z) : string :=
  let str_code := if 10 <=? code then pretty code else "0" +:+ pretty code in
  "P3" +:+ str_code.

Section PluginFiles.
(** [provd.util.format_mac] with [separator=''] and [uppercase=False],
    the plugin's [_tftpboot_dir], and [os.remove], whose [OSError] is
    given by its text ([None] when the file was removed). *)
Variable format_mac : value -> outcome string.
Variable _tftpboot_dir : string.
Variable os_remove : string -> option string.

(** The definition of [get_remote_state_trigger_filename] that stands
    first in the class body; the second one replaces it. *)
Definition get_remote_state_trigger_filename_shadowed (device : gmap string value)
    : outcome (option string) :=
  match device !! "mac" with
  | None => Return None
  | Some _ =>
      match _dev_specific_filename format_mac device with
      | Return f => Return (Some f)
      | Raise e => Raise e
      end
  end.

Definition get_remote_state_trigger_filename (device : gmap string value)
    : outcome (option string) :=
  match device !! "mac" with
  | Some _ =>
      match _dev_specific_filename format_mac device with
      | Return f => Return (Some f)
      | Raise e => Raise e
      end
  | None => Return None
  end.

(** [_remove_configuration_file]: the [OSError] of [os.remove] is logged
    and goes no further. *)
Definition _remove_configuration_file (device : gmap string value)
    : outcome unit * list log_entry :=
  match _dev_specific_filename format_mac device with
  | Raise e => (Raise e, [])
  | Return filename =>
      match os_remove (path_join _tftpboot_dir filename) with
      | None => (Return tt, [])
      | Some e =>
          (Return tt,
           [Log INFO (VStr "error while removing configuration file: %s") [VStr e]])
      end
  end.

Definition deconfigure (device : gmap string value) : outcome unit * list log_entry :=
  _remove_configuration_file device.
End PluginFiles.

(** ** Vocabulary of the further properties *)

(** [sep.join(parts)] *)
Fixpoint join (sep : string) (parts : list string) : string :=
  match parts with
  | [] => ""
  | [p] => p
  | p :: ps => p +:+ sep +:+ join sep ps
  end.

(** The key [_add_dns] writes for part number [n]. *)
Definition dns_key (n : Z) : string := "XX_dns_" +:+ pretty n.

Definition PARIS_RULE : string := "CET-1CEST-2,M3.5.0/02:00:00,M10.5.0/03:00:00".

(** The four ids of a key, as a list. *)
Definition ids_list (t : Z * Z * Z * Z) : list Z :=
  let '(key_mode_id, account_id, name_id, value_id) := t in
  [key_mode_id; account_id; name_id; value_id].

(** A sip line that is a dictionary whose password is not [autoprov]. *)
Definition password_settled (kv : string * value) : Prop :=
  exists d p, kv.2 = VDict d /\ assoc "password" d = Some p /\ eq_str p "autoprov" = false.

(** What follows a greedy run of the class [c]: the end of the string,
    or a character outside [c]. *)
Definition run_ends (c : ascii -> bool) (rest : string) : Prop :=
  match rest with
  | EmptyString => True
  | String a _ => c a = false
  end.

(** The enrichment of [configure] without the four steps whose input is
    read with [raw_config.get]. *)
Definition enrich_required (model : value) : M unit :=
  (_check_lines_password ;;
   _add_timezone ;;
   _add_fkeys ;;
   _add_mpk model ;;
   _add_v2_fkeys model)%py.

(** The keys those remaining steps write. *)
Definition required_keys : string -> bool :=
  one_of ["sip_lines"; "timezone"; "XX_timezone"; "XX_fkeys"; "XX_mpk"; "XX_v2_fkeys"].

(** A raw config with a line still on its provisioning password and two
    function keys, and none of the optional settings. *)
Definition keyed_config : gmap string value :=
  <["http_port" := VInt 8667]>
    (<["sip_lines" := VDict [("1", VDict [("password", VStr "autoprov")])]]>
       (<["funckeys" := VDict [("1", blf_key "1" "1001");
                               ("2", labelled_key "speeddial" "1" "Desk" "1002")]]> ∅)).

(** * Properties *)

(** ** Strings *)

Lemma prefix_spec (p s : string) :
  String.prefix p s = true <-> exists rest, s = p +:+ rest.
Proof.
  revert s; induction p as [|a p IH]; intros s.
  - split; [intros _; exists s; reflexivity | intros _; destruct s; reflexivity].
  - destruct s as [|b s]; simpl.
    + split; [discriminate | intros [rest H]; discriminate H].
    + destruct (ascii_dec a b) as [->|Hab].
      * rewrite IH. split; intros [rest H]; exists rest.
        -- rewrite H; reflexivity.
        -- injection H as H; exact H.
      * split; [discriminate | intros [rest H]; injection H as H1 H2; congruence].
Qed.

Lemma model_in_spec (model : option string) (models : list string) :
  model_in model models = true <-> exists m, model = Some m /\ m ∈ models.
Proof.
  destruct model as [m|]; simpl.
  - rewrite existsb_exists. split.
    + intros (x & Hx & Heq). apply String.eqb_eq in Heq as ->.
      exists x; split; [reflexivity | apply list_elem_of_In; exact Hx].
    + intros (x & [= <-] & Hx). exists m; split; [apply list_elem_of_In; exact Hx | apply String.eqb_refl].
  - split; [discriminate | intros (m & H & _); discriminate H].
Qed.

(** ** The associator *)

Lemma is_str_spec (o : option string) (s : string) : is_str o s = true <-> o = Some s.
Proof.
  destruct o as [s'|]; simpl; [|split; discriminate].
  rewrite String.eqb_eq. split; congruence.
Qed.

(** C3 (amended): on every triple, each field a string or absent,
    [_do_associate] gives the lowest level for a foreign or absent
    vendor and the next for a model that is not configured, whatever the
    version; for a configured model with a version it gives the partial
    level when the version does not start with the configured prefix and
    the highest when it does; a level it returns is one of these four;
    and it raises [AttributeError], returning no level, exactly when the
    model is configured and the version is absent. *)
Theorem do_associate_levels
    (IMPROBABLE UNKNOWN COMPLETE FULL : Z) (models : list string) (prefix : string)
    (vendor model version : option string) :
  IMPROBABLE < UNKNOWN < COMPLETE /\ COMPLETE < FULL ->
  let r := _do_associate IMPROBABLE UNKNOWN COMPLETE FULL models prefix vendor model version in
  let known := exists m, model = Some m /\ m ∈ models in
  let matching := exists v rest, version = Some v /\ v = prefix +:+ rest in
  let other := exists v, version = Some v /\ ~ exists rest, v = prefix +:+ rest in
  (forall l, r = Return l -> l = IMPROBABLE \/ l = UNKNOWN \/ l = COMPLETE \/ l = FULL) /\
  (r = Return IMPROBABLE <-> vendor <> Some "Grandstream") /\
  (r = Return UNKNOWN <-> vendor = Some "Grandstream" /\ ~ known) /\
  (r = Return COMPLETE <-> vendor = Some "Grandstream" /\ known /\ other) /\
  (r = Return FULL <-> vendor = Some "Grandstream" /\ known /\ matching) /\
  (r = Raise AttributeError <-> vendor = Some "Grandstream" /\ known /\ version = None).
Proof.
  intros Hord r known matching other.
  assert (Hv : if is_str vendor "Grandstream" then vendor = Some "Grandstream"
               else vendor <> Some "Grandstream").
  { pose proof (is_str_spec vendor "Grandstream") as H.
    destruct (is_str vendor "Grandstream"); [apply H; reflexivity|].
    intros E. apply H in E. discriminate. }
  assert (Hk : if model_in model models then known else ~ known).
  { pose proof (model_in_spec model models) as H.
    destruct (model_in model models); [apply H; reflexivity|].
    intros E. apply H in E. discriminate. }
  assert (Hp : match version with
               | Some v => if String.prefix prefix v then matching /\ ~ other
                           else other /\ ~ matching
               | None => ~ matching /\ ~ other
               end).
  { subst matching other. destruct version as [v|].
    - pose proof (prefix_spec prefix v) as H.
      destruct (String.prefix prefix v).
      + assert (Hm : exists rest, v = prefix +:+ rest) by (apply H; reflexivity).
        split; [exists v; destruct Hm as [rest Hm]; exists rest; auto|].
        intros [v' [[= <-] Hn]]. contradiction.
      + assert (Hn : ~ exists rest, v = prefix +:+ rest).
        { intros E. apply H in E. discriminate. }
        split; [exists v; auto|].
        intros [v' [rest [[= <-] Hm]]]. apply Hn. exists rest. exact Hm.
    - split; [intros [v [rest [E _]]]|intros [v [E _]]]; discriminate. }
  subst r. unfold _do_associate.
  clearbody known matching other.
  destruct (is_str vendor "Grandstream"); destruct (model_in model models);
    destruct version as [v|]; try destruct (String.prefix prefix v);
    (split; [intros l [= <-]; tauto|]);
    repeat split; intros; try discriminate; try tauto;
    try (exfalso; match goal with H : Return _ = Return _ |- _ => injection H as H; lia end);
    try (exfalso; intuition congruence).
Qed.

Lemma do_associate_levels_witness :
  let vendor := Some "Grandstream" in
  let model := Some "GXP2160" in
  let version := Some "1.0.11.48" in
  let r := _do_associate 100 200 500 600 ["GXP2160"; "GXP2170"] "1.0.11"
             vendor model version in
  let known := exists m, model = Some m /\ m ∈ ["GXP2160"; "GXP2170"] in
  let matching := exists v rest, version = Some v /\ v = "1.0.11" +:+ rest in
  let other := exists v, version = Some v /\ ~ exists rest, v = "1.0.11" +:+ rest in
  (forall l, r = Return l -> l = 100 \/ l = 200 \/ l = 500 \/ l = 600) /\
  (r = Return 100 <-> vendor <> Some "Grandstream") /\
  (r = Return 200 <-> vendor = Some "Grandstream" /\ ~ known) /\
  (r = Return 500 <-> vendor = Some "Grandstream" /\ known /\ other) /\
  (r = Return 600 <-> vendor = Some "Grandstream" /\ known /\ matching) /\
  (r = Raise AttributeError <-> vendor = Some "Grandstream" /\ known /\ version = None).
Proof.
  apply (do_associate_levels 100 200 500 600 ["GXP2160"; "GXP2170"] "1.0.11"
           (Some "Grandstream") (Some "GXP2160") (Some "1.0.11.48")).
  lia.
Defined.

(** A Grandstream device of a configured model whose version is not
    known: [version.startswith] is called on [None] and the call returns
    no support level. *)
Lemma do_associate_absent_version_raises :
  _do_associate 100 200 500 600 ["GXP2160"; "GXP2170"] "1.0.11"
    (Some "Grandstream") (Some "GXP2160") None = Raise AttributeError /\
  forall l, _do_associate 100 200 500 600 ["GXP2160"; "GXP2170"] "1.0.11"
              (Some "Grandstream") (Some "GXP2160") None <> Return l.
Proof. split; [reflexivity | discriminate]. Qed.

Example do_associate_full :
  _do_associate 100 200 500 600 ["GXP2160"; "GXP2170"] "1.0.11"
    (Some "Grandstream") (Some "GXP2160") (Some "1.0.11.48") = Return 600.
Proof. reflexivity. Qed.

Example do_associate_other_version :
  _do_associate 100 200 500 600 ["GXP2160"; "GXP2170"] "1.0.11"
    (Some "Grandstream") (Some "GXP2160") (Some "1.0.4.23") = Return 500.
Proof. reflexivity. Qed.

Example do_associate_no_model :
  _do_associate 100 200 500 600 ["GXP2160"; "GXP2170"] "1.0.11"
    (Some "Grandstream") None None = Return 200.
Proof. reflexivity. Qed.

Example do_associate_no_vendor :
  _do_associate 100 200 500 600 ["GXP2160"; "GXP2170"] "1.0.11"
    None (Some "GXP2160") None = Return 100.
Proof. reflexivity. Qed.

(** ** Running a step *)

Ltac unfold_m :=
  unfold bind, ret, raise, lift, rc_get, rc_item, rc_lookup, rc_set, logger in *.

Lemma bind_return {A B : Type} (m : M A) (f : A -> M B) (st st' : state) (a : A) :
  m st = (Return a, st') -> bind m f st = f a st'.
Proof. intros H. unfold bind. rewrite H. reflexivity. Qed.

Lemma bind_raise {A B : Type} (m : M A) (f : A -> M B) (st st' : state) (e : exn) :
  m st = (Raise e, st') -> bind m f st = (Raise e, st').
Proof. intros H. unfold bind. rewrite H. reflexivity. Qed.

(** ** The preconditions of [configure] *)

(** C6: without [http_port] in the raw config [configure] raises
    [RawConfigError]; with it but without [mac] in the device it raises
    the generic exception; either way nothing has been written or logged
    when it aborts. *)
Theorem configure_aborts
    (format_mac : value -> outcome string)
    (get_dev_template : string -> gmap string value -> outcome value)
    (dump : value -> gmap string value -> string -> outcome unit)
    (tftpboot_dir : string) (device : gmap string value) (st : state) :
  raw_config st !! "http_port" = None \/ device !! "mac" = None ->
  configure format_mac get_dev_template dump tftpboot_dir device st =
    (Raise (match raw_config st !! "http_port" with
            | None => RawConfigError "only support configuration via HTTP"
            | Some _ => Exception_ "MAC address needed for device configuration"
            end), st).
Proof.
  intros H. unfold configure, _check_config, _check_device. unfold_m.
  destruct (raw_config st !! "http_port") as [port|] eqn:Hport; [|reflexivity].
  destruct H as [H|H]; [discriminate H|]. rewrite H. reflexivity.
Qed.

Lemma configure_aborts_witness :
  let device : gmap string value := <["model" := VStr "GXP2160"]> ∅ in
  let st := State (<["http_port" := VInt 8667]> ∅) [] in
  configure (fun _ => Return "000b8240d55c") (fun _ _ => Return VNone)
      (fun _ _ _ => Return tt) "/var/lib/tftpboot/Grandstream" device st =
    (Raise (match raw_config st !! "http_port" with
            | None => RawConfigError "only support configuration via HTTP"
            | Some _ => Exception_ "MAC address needed for device configuration"
            end), st).
Proof.
  intros device st.
  apply (configure_aborts (fun _ => Return "000b8240d55c") (fun _ _ => Return VNone)
           (fun _ _ _ => Return tt) "/var/lib/tftpboot/Grandstream" device st).
  right. reflexivity.
Defined.

Example configure_no_http_port :
  configure (fun _ => Return "000b8240d55c") (fun _ _ => Return VNone)
      (fun _ _ _ => Return tt) "/var/lib/tftpboot/Grandstream"
      (<["mac" := VStr "00:0b:82:40:d5:5c"]> ∅)
      (State (<["sip_lines" := VDict []]> ∅) []) =
    (Raise (RawConfigError "only support configuration via HTTP"),
     State (<["sip_lines" := VDict []]> ∅) []).
Proof. reflexivity. Qed.

(** ** The function-key steps with no body *)

(** C10: on a raw config whose [funckeys] is a mapping, [_add_fkeys] sets
    [XX_fkeys] and [_add_v2_fkeys] sets [XX_v2_fkeys] to the empty list,
    whatever the function keys and the model are. *)
Theorem fkeys_always_empty (model : value) (items : list (string * value)) (st : state) :
  raw_config st !! "funckeys" = Some (VDict items) ->
  _add_fkeys st = (Return tt, State (<["XX_fkeys" := VList []]> (raw_config st)) (log st)) /\
  _add_v2_fkeys model st =
    (Return tt, State (<["XX_v2_fkeys" := VList []]> (raw_config st)) (log st)).
Proof.
  intros H. split.
  - unfold _add_fkeys. unfold_m. rewrite H. reflexivity.
  - reflexivity.
Qed.

Lemma fkeys_always_empty_witness :
  let st := State (<["funckeys" := VDict [("1", blf_key "1" "1001")]]> ∅) [] in
  _add_fkeys st = (Return tt, State (<["XX_fkeys" := VList []]> (raw_config st)) (log st)) /\
  _add_v2_fkeys (VStr "GXP2160") st =
    (Return tt, State (<["XX_v2_fkeys" := VList []]> (raw_config st)) (log st)).
Proof.
  apply (fkeys_always_empty (VStr "GXP2160") [("1", blf_key "1" "1001")]
           (State (<["funckeys" := VDict [("1", blf_key "1" "1001")]]> ∅) [])).
  reflexivity.
Defined.

(** ** [_add_mpk] *)

Lemma ids_2160_claimed (model : string) (i : Z) (old : option (Z * Z * Z * Z)) :
  model = "GXP2160" \/ model = "GXP2130" -> 1 <= i ->
  ids_2160 i old = Some (claimed_ids model i).
Proof.
  intros Hm Hi. unfold ids_2160, claimed_ids.
  replace (String.eqb model "GXP2160" || String.eqb model "GXP2130") with true
    by (destruct Hm as [->| ->]; reflexivity).
  destruct (Z.ltb_spec i 8); destruct (Z.leb_spec i 7); try lia; [reflexivity|].
  destruct (Z.leb_spec 8 i); try lia; simpl.
  destruct (Z.leb_spec i 18); simpl.
  - replace ((i - 8) * 4) with (4 * (i - 8)) by lia. reflexivity.
  - destruct (Z.leb_spec 19 i); try lia.
    replace ((i - 19) * 4) with (4 * (i - 19)) by lia. reflexivity.
Qed.

Lemma ids_2170_claimed (model : string) (i : Z) :
  model = "GXP2170" \/ model = "GXP2140" -> ids_2170 i = claimed_ids model i.
Proof.
  intros Hm. unfold ids_2170, claimed_ids.
  replace (String.eqb model "GXP2160" || String.eqb model "GXP2130") with false
    by (destruct Hm as [->| ->]; reflexivity).
  replace (5 * i - 5) with (5 * (i - 1)) by lia. reflexivity.
Qed.

(** The dispatch on one of the four models with keys, for an index in
    range: no [break], no [continue], the documented ids. *)
Lemma mpk_dispatch_in_range (model : string) (i : Z) (old : option (Z * Z * Z * Z)) (st : state) :
  model ∈ ["GXP2160"; "GXP2130"; "GXP2170"; "GXP2140"] ->
  in_supported_range model i = true ->
  mpk_dispatch (VStr model) i old st = (Return (None, Some (claimed_ids model i)), st).
Proof.
  intros Hm Hr. unfold in_supported_range, out_of_range in Hr.
  apply andb_prop in Hr as [H1 Hr]. apply Z.leb_le in H1.
  apply negb_true_iff in Hr.
  unfold mpk_dispatch, eq_str.
  repeat (apply elem_of_cons in Hm as [->|Hm]); [| | | |inversion Hm]; simpl in *.
  - rewrite orb_false_r in Hr. rewrite Hr. unfold ret.
    rewrite (ids_2160_claimed "GXP2160") by auto. reflexivity.
  - rewrite Hr. unfold ret.
    rewrite (ids_2160_claimed "GXP2130") by auto. reflexivity.
  - unfold ret. rewrite (ids_2170_claimed "GXP2170") by auto. reflexivity.
  - unfold ret. rewrite (ids_2170_claimed "GXP2140") by auto. reflexivity.
Qed.

Lemma mpk_dispatch_out_of_range (model : string) (i : Z) (old : option (Z * Z * Z * Z)) (st : state) :
  out_of_range model i = true ->
  mpk_dispatch (VStr model) i old st = (Return (Some Break_, old), st).
Proof.
  unfold out_of_range, mpk_dispatch, eq_str. intros H.
  destruct (String.eqb model "GXP2160") eqn:E1; simpl in *.
  - destruct (24 <? i); [reflexivity|].
    apply String.eqb_eq in E1 as ->. simpl in H. discriminate H.
  - destruct (String.eqb model "GXP2130") eqn:E2; simpl in *; [|discriminate H].
    rewrite H. reflexivity.
Qed.

Lemma table_find_funckey (d : list (string * value)) (ty : value) :
  assoc "type" d = Some ty -> hashable ty = true ->
  table_find FUNCKEY_TYPES ty = Return (type_code_of d).
Proof.
  intros Hty Hh. unfold table_find, type_code_of. rewrite Hh, Hty.
  destruct ty; reflexivity.
Qed.

(** One pass of the loop body over a well-formed entry in range appends
    exactly the pairs the specification gives for it. *)
Lemma mpk_step_in_range (model : string) (item : string * value) (loc : mpk_locals) (st : state) :
  model ∈ ["GXP2160"; "GXP2130"; "GXP2170"; "GXP2140"] ->
  well_formed item ->
  (exists i, item_index item = Some i /\ in_supported_range model i = true) ->
  exists lg ids',
    mpk_step (VStr model) item loc st =
      (Return (Continue_, MpkLocals (lines loc ++ claimed_pairs model item) ids'),
       State (raw_config st) lg).
Proof.
  intros Hm (i & d & ty & Hi & Hd & Hty & Hh & Hsup) (i' & Hi' & Hr).
  rewrite Hi in Hi'. injection Hi' as <-.
  unfold mpk_step, claimed_pairs. unfold item_index in *.
  unfold lift at 1, bind at 1.
  change (py_int (VStr item.1))
    with (match int_of_string item.1 with Some z => Return z | None => Raise ValueError end).
  rewrite Hi.
  unfold bind at 1. rewrite (mpk_dispatch_in_range model i _ st Hm Hr). cbn [fst snd].
  rewrite Hd. unfold mpk_emit. unfold bind at 1, lift at 1, dict_item at 1. rewrite Hty.
  unfold bind at 1, lift at 1. rewrite (table_find_funckey d ty Hty Hh).
  destruct (type_code_of d) as [code|] eqn:Hcode.
  - destruct Hsup as (line & n & v & Hline & Hn & Hv); [eexists; reflexivity|].
    cbn [ids lines]. rewrite Hr, Hline, Hv. cbv beta iota. rewrite Hn.
    destruct (claimed_ids model i) as [[[km acc] nm] vl].
    unfold bind, lift, ret, dict_item, dict_has; simpl lines.
    rewrite Hline, Hn, Hv.
    destruct (assoc "label" d) as [l|] eqn:Hl.
    + rewrite bool_decide_eq_true_2 by (eexists; reflexivity).
      destruct st as [rc lg]. eexists lg, _. simpl. rewrite <- !app_assoc. reflexivity.
    + rewrite bool_decide_eq_false_2 by (intros [x Hx]; discriminate Hx).
      destruct st as [rc lg]. eexists lg, _. simpl. rewrite <- !app_assoc. reflexivity.
  - unfold bind, logger, ret. simpl.
    eexists _, _. rewrite app_nil_r. reflexivity.
Qed.

Lemma mpk_loop_in_range (model : string) (pre rest : list (string * value)) :
  model ∈ ["GXP2160"; "GXP2130"; "GXP2170"; "GXP2140"] ->
  Forall (fun item => well_formed item /\
            exists i, item_index item = Some i /\ in_supported_range model i = true) pre ->
  forall (loc : mpk_locals) (st : state),
  exists lg ids',
    mpk_loop (VStr model) (pre ++ rest) loc st =
      mpk_loop (VStr model) rest
        (MpkLocals (lines loc ++ flat_map (claimed_pairs model) pre) ids')
        (State (raw_config st) lg).
Proof.
  intros Hm Hpre. induction Hpre as [|item pre [Hwf Hr] _ IH]; intros loc st.
  - destruct loc as [ls i], st as [rc lg]. exists lg, i. simpl. rewrite app_nil_r. reflexivity.
  - destruct (mpk_step_in_range model item loc st Hm Hwf Hr) as (lg1 & ids1 & Hstep).
    simpl. unfold bind at 1. rewrite Hstep. simpl.
    destruct (IH (MpkLocals (lines loc ++ claimed_pairs model item) ids1)
                 (State (raw_config st) lg1)) as (lg2 & ids2 & Hloop).
    rewrite Hloop. simpl. exists lg2, ids2. rewrite <- app_assoc. reflexivity.
Qed.

Lemma mpk_loop_out_of_range (model : string) (post : list (string * value))
    (loc : mpk_locals) (st : state) :
  Forall (fun item => exists i, item_index item = Some i /\ out_of_range model i = true) post ->
  mpk_loop (VStr model) post loc st = (Return loc, st) /\
  flat_map (claimed_pairs model) post = [].
Proof.
  intros Hpost. split.
  - destruct Hpost as [|item post (i & Hi & Ho) _]; [reflexivity|].
    simpl. unfold bind at 1, mpk_step, bind at 1, lift at 1, py_int.
    unfold item_index in Hi. rewrite Hi.
    unfold bind at 1. rewrite (mpk_dispatch_out_of_range model i _ st Ho). simpl.
    destruct loc; reflexivity.
  - induction Hpost as [|item post (i & Hi & Ho) _ IH]; [reflexivity|].
    simpl. rewrite IH, app_nil_r. unfold claimed_pairs, in_supported_range.
    rewrite Hi, Ho, andb_false_r.
    destruct item.2; try reflexivity.
    destruct (type_code_of d), (assoc "line" d), (assoc "value" d); try reflexivity.
    destruct (py_int v); reflexivity.
Qed.

Ltac solve_well_formed :=
  unfold well_formed; eexists _, _, _;
  repeat split; try reflexivity;
  intros _; eexists _, _, _; repeat split; reflexivity.

(** C1 (amended): on GXP2160, GXP2130, GXP2170 and GXP2140, when the
    entries of [funckeys] are well formed and no index past the keys of
    the model comes before an index in range in the iteration order,
    [_add_mpk] returns and [XX_mpk] is, entry after entry, what the
    specification gives: nothing for an index out of range or a type that
    is not supported, else the key-mode, account and value pairs, and the
    label pair when the entry has a label, with the documented ids. *)
Theorem add_mpk_ids (model : string) (pre post : list (string * value)) (st : state) :
  model ∈ ["GXP2160"; "GXP2130"; "GXP2170"; "GXP2140"] ->
  raw_config st !! "funckeys" = Some (VDict (pre ++ post)) ->
  Forall (fun item => well_formed item /\
            exists i, item_index item = Some i /\ in_supported_range model i = true) pre ->
  Forall (fun item => exists i, item_index item = Some i /\ out_of_range model i = true) post ->
  exists lg,
    _add_mpk (VStr model) st =
      (Return tt,
       State (<["XX_mpk" := VList (flat_map (claimed_pairs model) (pre ++ post))]> (raw_config st))
             lg).
Proof.
  intros Hm Hfk Hpre Hpost.
  unfold _add_mpk. unfold bind at 1, logger at 1. unfold bind at 1, rc_item. cbn [raw_config].
  rewrite Hfk.
  destruct (mpk_loop_in_range model pre post Hm Hpre (MpkLocals [] None)
              (State (raw_config st) (log st ++ [Log INFO (VStr model) []])))
    as (lg & ids' & Hloop).
  unfold bind at 1. rewrite Hloop. cbn [lines raw_config app].
  destruct (mpk_loop_out_of_range model post
              (MpkLocals (flat_map (claimed_pairs model) pre) ids')
              (State (raw_config st) lg) Hpost) as [Hrun Hnil].
  rewrite Hrun. exists lg. unfold rc_set. cbn [lines raw_config log].
  rewrite flat_map_app, Hnil, app_nil_r. reflexivity.
Qed.

Lemma add_mpk_ids_witness :
  let pre := [("1", labelled_key "blf" "1" "Alice" "1001"); ("8", blf_key "2" "1002");
              ("19", labelled_key "fax" "1" "Fax" "1003")] in
  let post := [("25", blf_key "1" "1004")] in
  let st := State (<["funckeys" := VDict (pre ++ post)]> ∅) [] in
  exists lg,
    _add_mpk (VStr "GXP2160") st =
      (Return tt,
       State (<["XX_mpk" := VList (flat_map (claimed_pairs "GXP2160") (pre ++ post))]>
                (raw_config st)) lg).
Proof.
  intros pre post st.
  apply (add_mpk_ids "GXP2160" pre post st).
  - set_solver.
  - reflexivity.
  - repeat constructor; try solve_well_formed; eexists; split; reflexivity.
  - repeat constructor. eexists; split; reflexivity.
Defined.

Example claimed_pairs_labelled :
  claimed_pairs "GXP2160" ("8", labelled_key "blf" "2" "Bob" "1002") =
    [pair_of "P353" (VInt 1); pair_of "P354" (VInt 1); pair_of "P355" (VStr "Bob");
     pair_of "P356" (VStr "1002")].
Proof. reflexivity. Qed.

Example claimed_ids_2160 :
  claimed_ids "GXP2160" 7 = (329, 307, 308, 309) /\
  claimed_ids "GXP2130" 8 = (353, 354, 355, 356) /\
  claimed_ids "GXP2160" 24 = (1460, 1461, 1462, 1463) /\
  claimed_ids "GXP2170" 3 = (23010, 23011, 23012, 23013).
Proof. repeat split; reflexivity. Qed.

(** C1, as stated, fails: an entry in range with a supported type and no
    label yields three pairs, not four. *)
Lemma add_mpk_three_pairs :
  let st := State (<["funckeys" := VDict [("1", blf_key "1" "1001")]]> ∅) [] in
  exists ls,
    raw_config (_add_mpk (VStr "GXP2160") st).2 !! "XX_mpk" = Some (VList ls) /\
    ls = [pair_of "P323" (VInt 1); pair_of "P301" (VInt 0); pair_of "P303" (VStr "1001")] /\
    length ls <> 4%nat.
Proof.
  eexists. split; [vm_compute; reflexivity|]. split; [reflexivity|]. simpl. lia.
Qed.

(** The loop leaves at the first index out of range: an entry in range
    that the iteration reaches later is dropped. *)
Example add_mpk_break_drops_later_keys :
  let st := State (<["funckeys" := VDict [("25", blf_key "1" "1004"); ("1", blf_key "1" "1001")]]> ∅) [] in
  (_add_mpk (VStr "GXP2160") st).1 = Return tt /\
  raw_config (_add_mpk (VStr "GXP2160") st).2 !! "XX_mpk" = Some (VList []).
Proof. split; vm_compute; reflexivity. Qed.

Lemma mpk_dispatch_unknown (model : value) (i : Z) (old : option (Z * Z * Z * Z)) (st : state) :
  unknown_model model ->
  mpk_dispatch model i old st =
    (Return (None, old),
     State (raw_config st)
       (log st ++ [Log ERROR
                     (VStr ("Unable to generate BLF for model " +:+ dquote +:+ "%s" +:+ dquote))
                     [model]])).
Proof.
  intros (H1 & H2 & H3 & H4 & H5). unfold mpk_dispatch.
  rewrite H1, H2, H3, H4, H5. reflexivity.
Qed.

(** C2, where the code departs from it: for a model that is none of the
    five, as soon as the first entry of [funckeys] has a supported type,
    [_add_mpk] logs the error and then raises [UnboundLocalError] on
    [key_mode_id]; [XX_mpk] is not set. *)
Theorem add_mpk_unknown_model_raises
    (model : value) (k : string) (d : list (string * value))
    (rest : list (string * value)) (st : state) :
  unknown_model model ->
  raw_config st !! "funckeys" = Some (VDict ((k, VDict d) :: rest)) ->
  is_Some (int_of_string k) ->
  is_Some (type_code_of d) ->
  _add_mpk model st =
    (Raise (UnboundLocalError "key_mode_id"),
     State (raw_config st)
       (log st ++ [Log INFO model []] ++
        [Log ERROR (VStr ("Unable to generate BLF for model " +:+ dquote +:+ "%s" +:+ dquote))
           [model]])).
Proof.
  intros Hu Hfk [i Hi] [code Hcode].
  unfold _add_mpk. unfold bind at 1, logger at 1. unfold bind at 1, rc_item. cbn [raw_config].
  rewrite Hfk. unfold bind at 1. cbn [mpk_loop]. unfold bind at 1, mpk_step.
  unfold bind at 1, lift at 1. cbn [fst snd py_int]. rewrite Hi.
  unfold bind at 1. rewrite (mpk_dispatch_unknown model i _ _ Hu). cbn [fst snd ids lines].
  unfold mpk_emit. unfold bind at 1, lift at 1, dict_item at 1.
  pose proof Hcode as Hty. unfold type_code_of in Hty.
  destruct (assoc "type" d) as [[| | |t| | |]|] eqn:Ht; try discriminate Hty.
  unfold bind at 1, lift at 1.
  rewrite (table_find_funckey d (VStr t) Ht eq_refl), Hcode.
  cbn [ids]. unfold raise. cbn [raw_config log]. rewrite <- app_assoc. reflexivity.
Qed.

Lemma add_mpk_unknown_model_raises_witness :
  let st := State (<["funckeys" := VDict [("1", blf_key "1" "1001")]]> ∅) [] in
  _add_mpk VNone st =
    (Raise (UnboundLocalError "key_mode_id"),
     State (raw_config st)
       (log st ++ [Log INFO VNone []] ++
        [Log ERROR (VStr ("Unable to generate BLF for model " +:+ dquote +:+ "%s" +:+ dquote))
           [VNone]])).
Proof.
  intros st.
  apply (add_mpk_unknown_model_raises VNone "1"
           [("type", VStr "blf"); ("line", VStr "1"); ("value", VStr "1001")] [] st).
  - repeat split.
  - reflexivity.
  - eexists; reflexivity.
  - eexists; reflexivity.
Defined.

Lemma mpk_loop_gxp2135 (items : list (string * value)) (loc : mpk_locals) (st : state) :
  Forall (fun item => is_Some (item_index item)) items ->
  mpk_loop (VStr "GXP2135") items loc st = (Return loc, st).
Proof.
  intros Hitems. revert loc st.
  induction Hitems as [|item items [i Hi] _ IH]; intros loc st; [reflexivity|].
  cbn [mpk_loop]. unfold bind at 1, mpk_step. unfold bind at 1, lift at 1.
  change (py_int (VStr item.1))
    with (match int_of_string item.1 with Some z => Return z | None => Raise ValueError end).
  unfold item_index in Hi. rewrite Hi. cbn. rewrite IH. destruct loc; reflexivity.
Qed.

(** X8, what holds of C2: on GXP2135 every key is skipped, whatever the
    entries under integer keys are, and [_add_mpk] returns with [XX_mpk]
    empty, having logged the model only. *)
Lemma add_mpk_gxp2135_empty (items : list (string * value)) (st : state) :
  raw_config st !! "funckeys" = Some (VDict items) ->
  Forall (fun item => is_Some (item_index item)) items ->
  _add_mpk (VStr "GXP2135") st =
    (Return tt,
     State (<["XX_mpk" := VList []]> (raw_config st))
           (log st ++ [Log INFO (VStr "GXP2135") []])).
Proof.
  intros Hfk Hitems.
  unfold _add_mpk. unfold bind at 1, logger at 1. unfold bind at 1, rc_item. cbn [raw_config].
  rewrite Hfk. unfold bind at 1.
  rewrite (mpk_loop_gxp2135 items _ _ Hitems). reflexivity.
Qed.

(** ** The matcher *)

Lemma append_cons (a : ascii) (s t : string) : String a s +:+ t = String a (s +:+ t).
Proof. reflexivity. Qed.

Lemma length_append (s t : string) :
  String.length (s +:+ t) = (String.length s + String.length t)%nat.
Proof. induction s as [|a s IH]; [reflexivity|]. rewrite append_cons. simpl. rewrite IH. reflexivity. Qed.

Lemma substring_append (p s : string) : String.substring 0 (String.length p) (p +:+ s) = p.
Proof.
  induction p as [|a p IH]; [destruct s; reflexivity|].
  rewrite append_cons. simpl. rewrite IH. reflexivity.
Qed.

Lemma consumed_append (p s : string) : consumed (p +:+ s) s = p.
Proof.
  unfold consumed. rewrite length_append.
  replace (String.length p + String.length s - String.length s)%nat with (String.length p) by lia.
  apply substring_append.
Qed.

Lemma strip_prefix_spec (p s s' : string) : strip_prefix p s = Some s' <-> s = p +:+ s'.
Proof.
  revert s; induction p as [|a p IH]; intros s.
  - change ("" +:+ s') with s'. simpl. split; congruence.
  - destruct s as [|b s]; rewrite append_cons; simpl; [split; discriminate|].
    destruct (Ascii.eqb_spec a b) as [->|Hab].
    + rewrite IH. split; congruence.
    + split; [discriminate | intros [= H _]; congruence].
Qed.

Lemma star_match_inv {R : Type} (c : ascii -> bool) (k : string -> option R) (s : string) (r : R) :
  star_match c k s = Some r ->
  exists p s', s = p +:+ s' /\ all_chars c p = true /\ k s' = Some r.
Proof.
  induction s as [|a s IH]; simpl; intros H.
  - exists "", "". auto.
  - destruct (c a) eqn:Hc; [|exists "", (String a s); auto].
    destruct (star_match c k s) as [r'|] eqn:Hs.
    + injection H as ->. destruct (IH eq_refl) as (p & s' & -> & Hp & Hk).
      exists (String a p), s'. rewrite append_cons. simpl. rewrite Hc. auto.
    + exists "", (String a s). auto.
Qed.

Lemma lit_inv (l s : string) (caps : list string)
    (k : string -> list string -> option (list string)) (out : list string) :
  rmatch (Lit l) s caps k = Some out -> exists s', s = l +:+ s' /\ k s' caps = Some out.
Proof.
  simpl. destruct (strip_prefix l s) as [s'|] eqn:H; [|discriminate].
  intros Hk. exists s'. split; [apply strip_prefix_spec; exact H | exact Hk].
Qed.

Lemma plus_inv (c : ascii -> bool) (s : string) (caps : list string)
    (k : string -> list string -> option (list string)) (out : list string) :
  rmatch (Plus c) s caps k = Some out ->
  exists p s', s = p +:+ s' /\ p <> "" /\ all_chars c p = true /\ k s' caps = Some out.
Proof.
  simpl. destruct s as [|a s]; [discriminate|].
  destruct (c a) eqn:Hc; [|discriminate].
  intros H. apply star_match_inv in H as (p & s' & -> & Hp & Hk).
  exists (String a p), s'. rewrite append_cons. simpl. rewrite Hc. auto.
Qed.

Lemma group_plus_inv (c : ascii -> bool) (s : string) (caps : list string)
    (k : string -> list string -> option (list string)) (out : list string) :
  rmatch (Group (Plus c)) s caps k = Some out ->
  exists p s', s = p +:+ s' /\ p <> "" /\ all_chars c p = true /\
               k s' (caps ++ [p]) = Some out.
Proof.
  intros H. cbn [rmatch] in H.
  apply (plus_inv c s caps (fun s' caps' => k s' (caps' ++ [consumed s s']))) in H
    as (p & s' & -> & Hne & Hp & Hk).
  rewrite consumed_append in Hk. exists p, s'. auto.
Qed.

Lemma opt_inv (r : regex) (s : string) (caps : list string)
    (k : string -> list string -> option (list string)) (out : list string) :
  rmatch (Opt r) s caps k = Some out -> rmatch r s caps k = Some out \/ k s caps = Some out.
Proof. simpl. destruct (rmatch r s caps k); auto. Qed.

Lemma seq_eq (r1 r2 : regex) (s : string) (caps : list string)
    (k : string -> list string -> option (list string)) :
  rmatch (Seq r1 r2) s caps k = rmatch r1 s caps (fun s' caps' => rmatch r2 s' caps' k).
Proof. reflexivity. Qed.

Lemma star_inv (c : ascii -> bool) (s : string) (caps : list string)
    (k : string -> list string -> option (list string)) (out : list string) :
  rmatch (Star c) s caps k = Some out ->
  exists p s', s = p +:+ s' /\ all_chars c p = true /\ k s' caps = Some out.
Proof. intros H. apply (star_match_inv c (fun s' => k s' caps)) in H. exact H. Qed.

Lemma group_lit_inv (l s : string) (caps : list string)
    (k : string -> list string -> option (list string)) (out : list string) :
  rmatch (Group (Lit l)) s caps k = Some out ->
  exists s', s = l +:+ s' /\ k s' (caps ++ [l]) = Some out.
Proof.
  intros H. cbn [rmatch] in H.
  destruct (strip_prefix l s) as [s'|] eqn:Hl; [|discriminate].
  apply strip_prefix_spec in Hl. subst s. rewrite consumed_append in H. eauto.
Qed.

(** The tail the two patterns share in shape: a literal, the version,
    a literal, the address. *)
Lemma version_mac_inv (l1 l2 : string) (s : string) (caps out : list string) :
  rmatch (Seq (Lit l1) (Seq (Group (Plus not_space)) (Seq (Lit l2) (Group (Plus not_space)))))
    s caps (fun _ caps' => Some caps') = Some out ->
  exists v mac, out = caps ++ [v; mac].
Proof.
  intros H.
  rewrite seq_eq in H. apply lit_inv in H as (s1 & -> & H).
  rewrite seq_eq in H. apply group_plus_inv in H as (v & s2 & -> & _ & _ & H).
  rewrite seq_eq in H. apply lit_inv in H as (s3 & -> & H).
  apply group_plus_inv in H as (mac & s4 & -> & _ & _ & H).
  injection H as <-. exists v, mac. rewrite <- app_assoc. reflexivity.
Qed.

(** A match of the first pattern starts with its literal, has three
    groups, and its model is made of word characters. *)
Lemma UA_REGEX_HW_inv (ua : string) (caps : list string) :
  re_match UA_REGEX_HW ua = Some caps ->
  (exists rest, ua = "Grandstream Model HW " +:+ rest) /\
  exists m v mac, caps = [m; v; mac] /\ all_chars is_word m = true.
Proof.
  unfold re_match, UA_REGEX_HW. cbn [seq_of]. intros H.
  rewrite seq_eq in H. apply lit_inv in H as (s1 & -> & H). split; [eauto|].
  rewrite seq_eq in H. apply group_plus_inv in H as (m & s2 & -> & _ & Hm & H).
  rewrite seq_eq in H. apply opt_inv in H as [H|H].
  - rewrite seq_eq in H. apply lit_inv in H as (s3 & -> & H).
    apply plus_inv in H as (x & s4 & -> & _ & _ & H).
    apply version_mac_inv in H as (v & mac & ->). exists m, v, mac. auto.
  - apply version_mac_inv in H as (v & mac & ->). exists m, v, mac. auto.
Qed.

(** A match of the second pattern starts with its literal and has three
    groups, the first being the model name of the pattern. *)
Lemma UA_REGEX_GXP2000_inv (ua : string) (caps : list string) :
  re_match UA_REGEX_GXP2000 ua = Some caps ->
  (exists rest, ua = "Grandstream GXP2000" +:+ rest) /\
  exists v mac, caps = ["GXP2000"; v; mac].
Proof.
  unfold re_match, UA_REGEX_GXP2000. cbn [seq_of]. intros H.
  rewrite seq_eq in H. apply lit_inv in H as (s1 & -> & H).
  rewrite seq_eq in H. apply group_lit_inv in H as (s2 & -> & H).
  split; [exists s2; reflexivity|].
  rewrite seq_eq in H. apply lit_inv in H as (s3 & -> & H).
  rewrite seq_eq in H. apply star_inv in H as (p & s4 & -> & _ & H).
  apply version_mac_inv in H as (v & mac & ->). exists v, mac. reflexivity.
Qed.

(** No User-Agent matches both patterns. *)
Lemma UA_REGEX_exclusive (ua : string) (caps1 caps2 : list string) :
  re_match UA_REGEX_HW ua = Some caps1 -> re_match UA_REGEX_GXP2000 ua = Some caps2 -> False.
Proof.
  intros H1 H2.
  apply UA_REGEX_HW_inv in H1 as [[r1 ->] _].
  apply UA_REGEX_GXP2000_inv in H2 as [[r2 H2] _].
  discriminate H2.
Qed.

(** Every match has exactly three groups. *)
Lemma re_match_groups (r : regex) (ua : string) (caps : list string) :
  r ∈ _UA_REGEX_LIST -> re_match r ua = Some caps -> exists m v mac, caps = [m; v; mac].
Proof.
  intros Hr H. unfold _UA_REGEX_LIST in Hr.
  apply elem_of_cons in Hr as [->|Hr]; [|apply elem_of_cons in Hr as [->|Hr]; [|inversion Hr]].
  - apply UA_REGEX_HW_inv in H as [_ (m & v & mac & -> & _)]. eauto.
  - apply UA_REGEX_GXP2000_inv in H as [_ (v & mac & ->)]. eauto.
Qed.

Lemma is_word_ascii (a : ascii) : is_word a = true -> is_ascii a = true.
Proof. destruct a as [[] [] [] [] [] [] [] []]; vm_compute; congruence. Qed.

Lemma all_word_ascii (s : string) : all_chars is_word s = true -> all_ascii s = true.
Proof.
  unfold all_ascii. induction s as [|a s IH]; [reflexivity|]. simpl.
  intros H. apply andb_prop in H as [Ha Hs]. rewrite (is_word_ascii a Ha), (IH Hs). reflexivity.
Qed.

(** ** The extractor *)

Section ExtractorFacts.
Variable norm_mac : string -> option string.

Lemma try_regex_found (r : regex) (ua m v mac n : string) :
  re_match r ua = Some [m; v; mac] ->
  decode_ascii mac ≫= norm_mac = Some n ->
  all_ascii m = true -> all_ascii v = true ->
  try_regex norm_mac r ua = Found (dev_info m v n).
Proof.
  intros Hm Hn Ham Hav. unfold try_regex. rewrite Hm, Hn.
  unfold decode_ascii. rewrite Ham, Hav. reflexivity.
Qed.

Lemma try_regex_malformed (r : regex) (ua m v mac : string) :
  re_match r ua = Some [m; v; mac] ->
  decode_ascii mac ≫= norm_mac = None ->
  try_regex norm_mac r ua = Next [mac_warning mac].
Proof. intros Hm Hn. unfold try_regex. rewrite Hm, Hn. reflexivity. Qed.

Lemma try_regex_no_match (r : regex) (ua : string) :
  re_match r ua = None -> try_regex norm_mac r ua = Next [].
Proof. intros Hm. unfold try_regex. rewrite Hm. reflexivity. Qed.

Lemma HW_match_excludes_GXP2000 (ua : string) (caps : list string) :
  re_match UA_REGEX_HW ua = Some caps -> re_match UA_REGEX_GXP2000 ua = None.
Proof.
  intros H. destruct (re_match UA_REGEX_GXP2000 ua) as [caps2|] eqn:H2; [|reflexivity].
  destruct (UA_REGEX_exclusive ua caps caps2 H H2).
Qed.

Lemma GXP2000_match_excludes_HW (ua : string) (caps : list string) :
  re_match UA_REGEX_GXP2000 ua = Some caps -> re_match UA_REGEX_HW ua = None.
Proof.
  intros H. destruct (re_match UA_REGEX_HW ua) as [caps1|] eqn:H1; [|reflexivity].
  destruct (UA_REGEX_exclusive ua caps1 caps H1 H).
Qed.

(** The model a pattern captures always decodes. *)
Lemma captured_model_ascii (r : regex) (ua m v mac : string) :
  r ∈ _UA_REGEX_LIST -> re_match r ua = Some [m; v; mac] -> all_ascii m = true.
Proof.
  intros Hr H. unfold _UA_REGEX_LIST in Hr.
  apply elem_of_cons in Hr as [->|Hr]; [|apply elem_of_cons in Hr as [->|Hr]; [|inversion Hr]].
  - apply UA_REGEX_HW_inv in H as [_ (m' & v' & mac' & [= -> -> ->] & Hw)].
    apply all_word_ascii. exact Hw.
  - apply UA_REGEX_GXP2000_inv in H as [_ (v' & mac' & [= -> -> ->])]. reflexivity.
Qed.

Lemma extract_from_ua_found (r : regex) (ua m v mac n : string) :
  r ∈ _UA_REGEX_LIST ->
  re_match r ua = Some [m; v; mac] ->
  decode_ascii mac ≫= norm_mac = Some n ->
  all_ascii v = true ->
  _extract_from_ua norm_mac ua = (Return (Some (dev_info m v n)), []).
Proof.
  intros Hr Hm Hn Hv.
  pose proof (captured_model_ascii r ua m v mac Hr Hm) as Ham.
  unfold _UA_REGEX_LIST in Hr. unfold _extract_from_ua, _UA_REGEX_LIST. cbn [extract_loop].
  apply elem_of_cons in Hr as [->|Hr]; [|apply elem_of_cons in Hr as [->|Hr]; [|inversion Hr]].
  - rewrite (try_regex_found _ ua m v mac n Hm Hn Ham Hv). reflexivity.
  - rewrite (try_regex_no_match _ ua (GXP2000_match_excludes_HW ua _ Hm)).
    rewrite (try_regex_found _ ua m v mac n Hm Hn Ham Hv). reflexivity.
Qed.

Lemma extract_from_ua_malformed (r : regex) (ua m v mac : string) :
  r ∈ _UA_REGEX_LIST ->
  re_match r ua = Some [m; v; mac] ->
  decode_ascii mac ≫= norm_mac = None ->
  _extract_from_ua norm_mac ua = (Return None, [mac_warning mac]).
Proof.
  intros Hr Hm Hn.
  unfold _UA_REGEX_LIST in Hr. unfold _extract_from_ua, _UA_REGEX_LIST. cbn [extract_loop].
  apply elem_of_cons in Hr as [->|Hr]; [|apply elem_of_cons in Hr as [->|Hr]; [|inversion Hr]].
  - rewrite (try_regex_malformed _ ua m v mac Hm Hn).
    rewrite (try_regex_no_match _ ua (HW_match_excludes_GXP2000 ua _ Hm)). reflexivity.
  - rewrite (try_regex_no_match _ ua (GXP2000_match_excludes_HW ua _ Hm)).
    rewrite (try_regex_malformed _ ua m v mac Hm Hn). reflexivity.
Qed.

Lemma extract_from_ua_no_match (ua : string) :
  (forall r, r ∈ _UA_REGEX_LIST -> re_match r ua = None) ->
  _extract_from_ua norm_mac ua = (Return None, []).
Proof.
  intros H. unfold _extract_from_ua, _UA_REGEX_LIST. cbn [extract_loop].
  rewrite !try_regex_no_match by (apply H; unfold _UA_REGEX_LIST; repeat constructor).
  reflexivity.
Qed.
End ExtractorFacts.

(** C4 (amended): when a User-Agent matches one of the two patterns, its
    address decodes and normalizes, and its version is ASCII, the
    extractor returns the descriptor with vendor Grandstream, the captured
    model and version and the normalized address, and logs nothing; the
    User-Agent of the specification's example yields exactly the
    descriptor given there, for any [norm_mac] that normalizes its
    address as the example says. *)
Theorem extract_from_ua_descriptor
    (norm_mac : string -> option string) (r : regex) (ua m v mac n : string) :
  norm_mac "000b8240d55c" = Some "00:0b:82:40:d5:5c" ->
  r ∈ _UA_REGEX_LIST ->
  re_match r ua = Some [m; v; mac] ->
  decode_ascii mac ≫= norm_mac = Some n ->
  all_ascii v = true ->
  _extract_from_ua norm_mac ua = (Return (Some (dev_info m v n)), []) /\
  _extract_from_ua norm_mac ua_gxp2160 =
    (Return (Some (<["vendor" := VStr "Grandstream"]>
                     (<["model" := VStr "GXP2160"]>
                        (<["version" := VStr "1.0.4.23"]>
                           (<["mac" := VStr "00:0b:82:40:d5:5c"]> ∅))))), []).
Proof.
  intros Hex Hr Hm Hn Hv. split.
  - exact (extract_from_ua_found norm_mac r ua m v mac n Hr Hm Hn Hv).
  - apply (extract_from_ua_found norm_mac UA_REGEX_HW ua_gxp2160
             "GXP2160" "1.0.4.23" "000b8240d55c" "00:0b:82:40:d5:5c").
    + unfold _UA_REGEX_LIST. repeat constructor.
    + reflexivity.
    + simpl. exact Hex.
    + reflexivity.
Qed.

Lemma extract_from_ua_descriptor_witness :
  _extract_from_ua norm_mac_hex12 ua_gxp2000 =
    (Return (Some (dev_info "GXP2000" "1.1.6.9" "00:0b:82:27:26:c8")), []) /\
  _extract_from_ua norm_mac_hex12 ua_gxp2160 =
    (Return (Some (<["vendor" := VStr "Grandstream"]>
                     (<["model" := VStr "GXP2160"]>
                        (<["version" := VStr "1.0.4.23"]>
                           (<["mac" := VStr "00:0b:82:40:d5:5c"]> ∅))))), []).
Proof.
  apply (extract_from_ua_descriptor norm_mac_hex12 UA_REGEX_GXP2000 ua_gxp2000
           "GXP2000" "1.1.6.9" "000b822726c8" "00:0b:82:27:26:c8").
  - reflexivity.
  - unfold _UA_REGEX_LIST. repeat constructor.
  - reflexivity.
  - reflexivity.
  - reflexivity.
Defined.

(** C4, as stated, fails: this User-Agent matches the first pattern and
    its address is well formed, yet the extractor raises
    [UnicodeDecodeError] instead of returning a descriptor. *)
Lemma extract_from_ua_non_ascii_version :
  re_match UA_REGEX_HW ua_latin1_version =
    Some ["GXP2160"; "1.0.4.23" +:+ String (ascii_of_nat 233) ""; "000b8240d55c"] /\
  decode_ascii "000b8240d55c" ≫= norm_mac_hex12 = Some "00:0b:82:40:d5:5c" /\
  _extract_from_ua norm_mac_hex12 ua_latin1_version = (Raise UnicodeDecodeError, []).
Proof. repeat split; vm_compute; reflexivity. Qed.

(** C5: a User-Agent that matches neither pattern gives no result and no
    log; one that matches a pattern with an address that does not decode
    or normalize gives no result either, without raising, after one
    warning about the raw address. *)
Theorem extract_from_ua_no_result (norm_mac : string -> option string) (ua : string) :
  (forall r, r ∈ _UA_REGEX_LIST -> re_match r ua = None) \/
  (exists r caps, r ∈ _UA_REGEX_LIST /\ re_match r ua = Some caps /\
     forall mac, last caps = Some mac -> decode_ascii mac ≫= norm_mac = None) ->
  (_extract_from_ua norm_mac ua).1 = Return None /\
  ((forall r, r ∈ _UA_REGEX_LIST -> re_match r ua = None) ->
   (_extract_from_ua norm_mac ua).2 = []) /\
  (forall r caps mac, r ∈ _UA_REGEX_LIST -> re_match r ua = Some caps -> last caps = Some mac ->
   (_extract_from_ua norm_mac ua).2 = [mac_warning mac]).
Proof.
  intros [Hnone|(r & caps & Hr & Hm & Hbad)].
  - rewrite (extract_from_ua_no_match norm_mac ua Hnone). repeat split.
    intros r caps mac Hr Hm. rewrite (Hnone r Hr) in Hm. discriminate Hm.
  - destruct (re_match_groups r ua caps Hr Hm) as (m & v & mac & ->).
    rewrite (extract_from_ua_malformed norm_mac r ua m v mac Hr Hm (Hbad mac eq_refl)).
    split; [reflexivity|]. split.
    + intros Hnone. rewrite (Hnone r Hr) in Hm. discriminate Hm.
    + intros r' caps' mac' Hr' Hm' Hlast.
      assert (caps' = [m; v; mac]) as ->.
      { unfold _UA_REGEX_LIST in Hr, Hr'.
        apply elem_of_cons in Hr as [->|Hr]; [|apply elem_of_cons in Hr as [->|Hr]; [|inversion Hr]];
        (apply elem_of_cons in Hr' as [->|Hr']; [|apply elem_of_cons in Hr' as [->|Hr']; [|inversion Hr']]);
        try congruence.
        - destruct (UA_REGEX_exclusive ua _ _ Hm Hm').
        - destruct (UA_REGEX_exclusive ua _ _ Hm' Hm). }
      injection Hlast as <-. reflexivity.
Qed.

Lemma extract_from_ua_no_result_witness :
  (_extract_from_ua norm_mac_hex12 ua_short_mac).1 = Return None /\
  ((forall r, r ∈ _UA_REGEX_LIST -> re_match r ua_short_mac = None) ->
   (_extract_from_ua norm_mac_hex12 ua_short_mac).2 = []) /\
  (forall r caps mac, r ∈ _UA_REGEX_LIST -> re_match r ua_short_mac = Some caps ->
   last caps = Some mac ->
   (_extract_from_ua norm_mac_hex12 ua_short_mac).2 = [mac_warning mac]).
Proof.
  apply (extract_from_ua_no_result norm_mac_hex12 ua_short_mac).
  right. exists UA_REGEX_HW, ["GXP2160"; "1.0.4.23"; "000b82"].
  split; [unfold _UA_REGEX_LIST; repeat constructor|].
  split; [reflexivity|].
  intros mac [= <-]. reflexivity.
Defined.

Example extract_from_ua_short_mac :
  _extract_from_ua norm_mac_hex12 ua_short_mac = (Return None, [mac_warning "000b82"]).
Proof. reflexivity. Qed.

Example extract_from_ua_other_vendor :
  _extract_from_ua norm_mac_hex12 "Mozilla/5.0 (X11; Linux x86_64)" = (Return None, []).
Proof. reflexivity. Qed.
Example re_match_gxp1405 :
  re_match UA_REGEX_HW "Grandstream Model HW GXP1405 SW 1.0.4.23 DevId 000b8240d55c"
  = Some ["GXP1405"; "1.0.4.23"; "000b8240d55c"].
Proof. reflexivity. Qed.

Example re_match_gxp2200 :
  re_match UA_REGEX_HW "Grandstream Model HW GXP2200 V2.2A SW 1.0.1.33 DevId 000b82462d97"
  = Some ["GXP2200"; "1.0.1.33"; "000b82462d97"].
Proof. reflexivity. Qed.

Example re_match_gxp2000 :
  re_match UA_REGEX_GXP2000
    "Grandstream GXP2000 (gxp2000e.bin:1.2.5.3/boot55e.bin:1.1.6.9) DevId 000b822726c8"
  = Some ["GXP2000"; "1.1.6.9"; "000b822726c8"].
Proof. reflexivity. Qed.

Example norm_mac_hex12_example : norm_mac_hex12 "000B8240d55c" = Some "00:0b:82:40:d5:5c".
Proof. reflexivity. Qed.

(** ** Frames and footprints *)

Section Locality.
Context {A B : Type}.
Variable W : string -> bool.

Lemma frames_ret (a : A) : frames W (ret a).
Proof. intros st k _. reflexivity. Qed.

Lemma frames_raise (e : exn) : frames W (raise e : M A).
Proof. intros st k _. reflexivity. Qed.

Lemma frames_lift (o : outcome A) : frames W (lift o).
Proof. intros st k _. reflexivity. Qed.

Lemma frames_bind (m : M A) (f : A -> M B) :
  frames W m -> (forall a, frames W (f a)) -> frames W (bind m f).
Proof.
  intros Hm Hf st k Hk. unfold bind.
  specialize (Hm st k Hk). destruct (m st) as [[a|e] st']; simpl in *.
  - rewrite (Hf a st' k Hk). exact Hm.
  - exact Hm.
Qed.

Lemma determined_ret (a : A) : determined W (ret a).
Proof. intros st1 st2 H. split; [reflexivity | exact H]. Qed.

Lemma determined_raise (e : exn) : determined W (raise e : M A).
Proof. intros st1 st2 H. split; [reflexivity | exact H]. Qed.

Lemma determined_lift (o : outcome A) : determined W (lift o).
Proof. intros st1 st2 H. split; [reflexivity | exact H]. Qed.

Lemma determined_bind (m : M A) (f : A -> M B) :
  determined W m -> (forall a, determined W (f a)) -> determined W (bind m f).
Proof.
  intros Hm Hf st1 st2 H. unfold bind.
  destruct (Hm st1 st2 H) as [Ho Hs].
  destruct (m st1) as [o1 s1], (m st2) as [o2 s2]; simpl in *. subst o2.
  destruct o1 as [a|e]; [apply Hf; exact Hs | split; [reflexivity | exact Hs]].
Qed.
End Locality.

Section LocalityOps.
Variable W : string -> bool.

Lemma frames_logger (lv : level) (msg : value) (args : list value) :
  frames W (logger lv msg args).
Proof. intros st k _. reflexivity. Qed.

Lemma determined_logger (lv : level) (msg : value) (args : list value) :
  determined W (logger lv msg args).
Proof. intros st1 st2 H. split; [reflexivity | exact H]. Qed.

Lemma frames_rc_lookup (k : string) : frames W (rc_lookup k).
Proof. intros st k' _. reflexivity. Qed.

Lemma frames_rc_get (k : string) : frames W (rc_get k).
Proof. intros st k' _. reflexivity. Qed.

Lemma frames_rc_item (k : string) : frames W (rc_item k).
Proof. intros st k' _. unfold rc_item. destruct (raw_config st !! k); reflexivity. Qed.

Lemma frames_rc_set (k : string) (v : value) : W k = true -> frames W (rc_set k v).
Proof.
  intros Hk st k' Hk'. unfold rc_set. simpl.
  apply lookup_insert_ne. intros ->. congruence.
Qed.

Lemma determined_rc_lookup (k : string) : W k = true -> determined W (rc_lookup k).
Proof. intros Hk st1 st2 H. unfold rc_lookup. simpl. rewrite (H k Hk). auto. Qed.

Lemma determined_rc_get (k : string) : W k = true -> determined W (rc_get k).
Proof. intros Hk st1 st2 H. unfold rc_get. simpl. rewrite (H k Hk). auto. Qed.

Lemma determined_rc_item (k : string) : W k = true -> determined W (rc_item k).
Proof.
  intros Hk st1 st2 H. unfold rc_item. rewrite (H k Hk).
  destruct (raw_config st2 !! k); auto.
Qed.

Lemma determined_rc_set (k : string) (v : value) : determined W (rc_set k v).
Proof.
  intros st1 st2 H. split; [reflexivity|]. intros k' Hk'. unfold rc_set. simpl.
  destruct (decide (k = k')) as [->|Hne].
  - rewrite !lookup_insert_eq. reflexivity.
  - rewrite !lookup_insert_ne by exact Hne. apply H. exact Hk'.
Qed.
End LocalityOps.

Lemma frames_mono {A : Type} (W W' : string -> bool) (m : M A) :
  (forall k, W k = true -> W' k = true) -> frames W m -> frames W' m.
Proof.
  intros Hsub Hm st k Hk. apply Hm.
  destruct (W k) eqn:E; [|reflexivity]. rewrite (Hsub k E) in Hk. discriminate Hk.
Qed.

(** One step of a proof that a computation frames or is determined by a
    set of keys: follow the structure of the computation. *)
Ltac local_step :=
  lazymatch goal with
  | |- frames _ (bind _ _) => apply frames_bind; [|intros ?]
  | |- frames _ (ret _) => apply frames_ret
  | |- frames _ (raise _) => apply frames_raise
  | |- frames _ (lift _) => apply frames_lift
  | |- frames _ (logger _ _ _) => apply frames_logger
  | |- frames _ (rc_lookup _) => apply frames_rc_lookup
  | |- frames _ (rc_get _) => apply frames_rc_get
  | |- frames _ (rc_item _) => apply frames_rc_item
  | |- frames _ (rc_set _ _) => apply frames_rc_set; reflexivity
  | |- determined _ (bind _ _) => apply determined_bind; [|intros ?]
  | |- determined _ (ret _) => apply determined_ret
  | |- determined _ (raise _) => apply determined_raise
  | |- determined _ (lift _) => apply determined_lift
  | |- determined _ (logger _ _ _) => apply determined_logger
  | |- determined _ (rc_lookup _) => apply determined_rc_lookup; reflexivity
  | |- determined _ (rc_get _) => apply determined_rc_get; reflexivity
  | |- determined _ (rc_item _) => apply determined_rc_item; reflexivity
  | |- determined _ (rc_set _ _) => apply determined_rc_set
  | |- _ _ (match ?x with _ => _ end) => destruct x
  end.

Ltac local := repeat local_step.

(** Two computations with disjoint footprints commute. *)
Lemma local_steps_commute (D1 D2 : string -> bool) (m1 m2 : M unit) :
  frames D1 m1 -> determined D1 m1 -> frames D2 m2 -> determined D2 m2 ->
  (forall k, D1 k = true -> D2 k = true -> False) ->
  forall st,
    completed (bind m1 (fun _ => m2) st) = completed (bind m2 (fun _ => m1) st).
Proof.
  intros F1 Dt1 F2 Dt2 Hdisj st.
  assert (A12 : agree D2 (m1 st).2 st).
  { intros k Hk. apply F1. destruct (D1 k) eqn:E; [destruct (Hdisj k E Hk) | reflexivity]. }
  assert (A21 : agree D1 (m2 st).2 st).
  { intros k Hk. apply F2. destruct (D2 k) eqn:E; [destruct (Hdisj k Hk E) | reflexivity]. }
  destruct (Dt2 _ _ A12) as [O2 S2]. destruct (Dt1 _ _ A21) as [O1 S1].
  pose proof (F1 st) as F1st. pose proof (F2 st) as F2st.
  pose proof (F1 (m2 st).2) as F1'. pose proof (F2 (m1 st).2) as F2'.
  unfold completed, bind.
  destruct (m1 st) as [o1 s1], (m2 st) as [o2 s2]; simpl in *.
  destruct (m2 s1) as [o2' s12], (m1 s2) as [o1' s21]; simpl in *. subst o2' o1'.
  destruct o1 as [[]|e1], o2 as [[]|e2]; simpl; try reflexivity.
  f_equal. apply map_eq. intros k.
  destruct (D1 k) eqn:E1; destruct (D2 k) eqn:E2.
  - destruct (Hdisj k E1 E2).
  - rewrite (F2' k E2). symmetry. apply S1. exact E1.
  - rewrite (F1' k E1). apply S2. exact E2.
  - rewrite (F2' k E2), (F1' k E1), (F1st k E1), (F2st k E2). reflexivity.
Qed.

Lemma prefix_append (p s : string) : String.prefix p (p +:+ s) = true.
Proof. apply prefix_spec. exists s. reflexivity. Qed.

Lemma frames_set_dns_parts (W : string -> bool) (parts : list string) (n : Z) :
  (forall x, W ("XX_dns_" +:+ x) = true) -> frames W (set_dns_parts n parts).
Proof.
  intros HW. revert n. induction parts as [|part parts IH]; intros n; cbn [set_dns_parts].
  - apply frames_ret.
  - apply frames_bind; [apply frames_rc_set, HW | intros _; apply IH].
Qed.

Lemma determined_set_dns_parts (W : string -> bool) (parts : list string) (n : Z) :
  determined W (set_dns_parts n parts).
Proof.
  revert n. induction parts as [|part parts IH]; intros n; cbn [set_dns_parts].
  - apply determined_ret.
  - apply determined_bind; [apply determined_rc_set | intros _; apply IH].
Qed.

Lemma footprint_dns_key (x : string) : footprint AddDns ("XX_dns_" +:+ x) = true.
Proof. unfold footprint. rewrite prefix_append. apply orb_true_r. Qed.

Lemma run_step_frames (s : step) : frames (footprint s) (run_step s).
Proof.
  destruct s; cbn [run_step].
  - unfold _check_lines_password. local.
  - unfold _add_sip_transport. local.
  - unfold _add_timezone. local.
  - unfold _add_locale. local.
  - unfold _add_dtmf_mode. local.
  - unfold _add_dns. local.
    apply frames_set_dns_parts, footprint_dns_key.
Qed.

Lemma run_step_determined (s : step) : determined (footprint s) (run_step s).
Proof.
  destruct s; cbn [run_step].
  - unfold _check_lines_password. local.
  - unfold _add_sip_transport. local.
  - unfold _add_timezone. local.
  - unfold _add_locale. local.
  - unfold _add_dtmf_mode. local.
  - unfold _add_dns. local.
    apply determined_set_dns_parts.
Qed.

Ltac split_keys H := repeat (apply orb_prop in H as [H|H]).

Ltac by_key H H' :=
  first [ discriminate H
        | apply String.eqb_eq in H; subst; vm_compute in H'; discriminate H' ].

Lemma footprint_disjoint (a b : step) (k : string) :
  a <> b -> footprint a k = true -> footprint b k = true -> False.
Proof.
  intros Hab H1 H2.
  destruct a, b; try congruence; clear Hab;
    cbn [footprint one_of existsb] in H1, H2;
    split_keys H1; first [ by_key H1 H2 | split_keys H2; by_key H2 H1 ].
Qed.

(** ** Independence of the steps *)

(** C9 (amended): for any two of [_check_lines_password],
    [_add_sip_transport], [_add_timezone], [_add_locale], [_add_dtmf_mode]
    and [_add_dns], on every raw config the two orders either both raise
    or both return, and when they return they hand over the same
    mapping.  What a raising pair leaves in the mapping, and which
    exception it raises, is not covered: it depends on the order. *)
Theorem steps_commute (a b : step) (st : state) :
  completed (bind (run_step a) (fun _ => run_step b) st) =
  completed (bind (run_step b) (fun _ => run_step a) st).
Proof.
  destruct (decide (a = b)) as [->|Hab]; [reflexivity|].
  apply (local_steps_commute (footprint a) (footprint b)).
  - apply run_step_frames.
  - apply run_step_determined.
  - apply run_step_frames.
  - apply run_step_determined.
  - intros k. apply footprint_disjoint. exact Hab.
Qed.

Example steps_commute_example :
  let st := State (<["sip_lines" := VDict [("1", VDict [("password", VStr "autoprov")])]]>
                     (<["dns_enabled" := VBool true]> (<["dns_ip" := VStr "10.0.0.254"]> ∅))) [] in
  completed (bind _add_dns (fun _ => _check_lines_password) st) =
  completed (bind _check_lines_password (fun _ => _add_dns) st) /\
  (default ∅ (completed (bind _add_dns (fun _ => _check_lines_password) st))) !! "XX_dns_4"
  = Some (VStr "254").
Proof. split; vm_compute; reflexivity. Qed.

(** With an unknown DTMF mode [_add_dtmf_mode] raises.  Run first, it
    leaves the mapping as it was; run after [_add_dns], it leaves the
    parts of the address in the mapping the caller passed: the two orders
    end with different mappings. *)
Lemma steps_do_not_commute_at_raise :
  let st := State (<["dns_enabled" := VBool true]>
                     (<["dns_ip" := VStr "10.0.0.254"]>
                        (<["sip_dtmf_mode" := VStr "bogus"]> ∅))) [] in
  let dns_first := bind (run_step AddDns) (fun _ => run_step AddDtmfMode) st in
  let dtmf_first := bind (run_step AddDtmfMode) (fun _ => run_step AddDns) st in
  dns_first.1 = Raise (KeyError (VStr "bogus")) /\
  dtmf_first.1 = Raise (KeyError (VStr "bogus")) /\
  raw_config dns_first.2 !! "XX_dns_1" = Some (VStr "10") /\
  raw_config dtmf_first.2 !! "XX_dns_1" = None /\
  raw_config dns_first.2 <> raw_config dtmf_first.2.
Proof.
  intros st dns_first dtmf_first.
  assert (H1 : raw_config dns_first.2 !! "XX_dns_1" = Some (VStr "10"))
    by (vm_compute; reflexivity).
  assert (H2 : raw_config dtmf_first.2 !! "XX_dns_1" = None)
    by (vm_compute; reflexivity).
  repeat split; try (vm_compute; reflexivity); try assumption.
  intros E. rewrite E, H2 in H1. discriminate H1.
Qed.

(** Without [dns_ip] the two steps both raise [KeyError], for a different
    key in each order. *)
Example steps_raise_differently :
  let st := State (<["dns_enabled" := VBool true]> (<["sip_dtmf_mode" := VStr "bogus"]> ∅)) [] in
  (bind (run_step AddDns) (fun _ => run_step AddDtmfMode) st).1
  = Raise (KeyError (VStr "dns_ip")) /\
  (bind (run_step AddDtmfMode) (fun _ => run_step AddDns) st).1
  = Raise (KeyError (VStr "bogus")).
Proof. split; vm_compute; reflexivity. Qed.

(** ** What the enrichment leaves alone *)

Lemma assoc_set_same (k : string) (v : value) (d : list (string * value)) :
  assoc k (assoc_set k v d) = Some v.
Proof.
  induction d as [|[k' v'] d IH]; simpl.
  - rewrite String.eqb_refl. reflexivity.
  - destruct (String.eqb k' k) eqn:E; simpl; rewrite E; [reflexivity | exact IH].
Qed.

Lemma assoc_set_other (k k' : string) (v : value) (d : list (string * value)) :
  k' <> k -> assoc k' (assoc_set k v d) = assoc k' d.
Proof.
  intros Hne. induction d as [|[k0 v0] d IH]; simpl.
  - destruct (String.eqb_spec k k'); [congruence | reflexivity].
  - destruct (String.eqb_spec k0 k) as [->|Hk]; simpl.
    + destruct (String.eqb_spec k k'); [congruence | reflexivity].
    + destruct (String.eqb k0 k'); [reflexivity | exact IH].
Qed.

Lemma lines_kept_refl (ls : list (string * value)) : lines_kept ls ls.
Proof. induction ls; constructor; [split; [reflexivity | left; reflexivity] | assumption]. Qed.

(** The loop of [_check_lines_password] only blanks [autoprov] passwords. *)
Lemma check_lines_kept (ls : list (string * value)) : lines_kept ls (check_lines ls).1.
Proof.
  induction ls as [|[k line] ls IH]; [constructor|].
  cbn [check_lines]. destruct line; try apply lines_kept_refl.
  destruct (assoc "password" d) as [p|] eqn:Hp; [|apply lines_kept_refl].
  destruct (check_lines ls) as [r e]. cbn [fst] in *.
  constructor; [|exact IH]. split; [reflexivity|]. cbn [snd].
  destruct (eq_str p "autoprov") eqn:Hauto; [|left; reflexivity].
  right. exists d, (assoc_set "password" (VStr "") d).
  destruct p; try discriminate Hauto. apply String.eqb_eq in Hauto as ->.
  repeat split; auto using assoc_set_same.
  intros k' Hk'. apply assoc_set_other. exact Hk'.
Qed.

Lemma check_lines_password_lines (st : state) :
  raw_config (_check_lines_password st).2 !! "sip_lines" =
    match raw_config st !! "sip_lines" with
    | Some (VDict ls) => Some (VDict (check_lines ls).1)
    | o => o
    end.
Proof.
  unfold _check_lines_password, bind, rc_item, rc_set, raise, ret.
  destruct (raw_config st !! "sip_lines") as [v|] eqn:H; [|exact H].
  destruct v; try exact H.
  destruct (check_lines d) as [ls' [e|]]; cbn; apply lookup_insert_eq.
Qed.

Lemma derived_dns_key (x : string) : derived_key ("XX_dns_" +:+ x) = true.
Proof.
  unfold derived_key. change ("XX_dns_" +:+ x) with ("XX_" +:+ ("dns_" +:+ x)).
  rewrite prefix_append. apply orb_true_r.
Qed.

Lemma frames_mpk_loop (W : string -> bool) (model : value) (items : list (string * value))
    (loc : mpk_locals) :
  frames W (mpk_loop model items loc).
Proof.
  revert loc. induction items as [|item items IH]; intros loc; cbn [mpk_loop].
  - apply frames_ret.
  - apply frames_bind.
    + unfold mpk_step, mpk_dispatch, mpk_emit. local.
    + intros r. destruct r.1; [apply IH | apply frames_ret].
Qed.

(** The steps after [_check_lines_password] write [timezone] and keys
    that start with [XX_] only. *)
Lemma frames_later_steps (model : value) :
  frames derived_key
    (bind _add_sip_transport (fun _ =>
     bind _add_timezone (fun _ =>
     bind _add_locale (fun _ =>
     bind _add_dtmf_mode (fun _ =>
     bind _add_fkeys (fun _ =>
     bind (_add_mpk model) (fun _ =>
     bind (_add_v2_fkeys model) (fun _ => _add_dns)))))))).
Proof.
  unfold _add_sip_transport, _add_timezone, _add_locale, _add_dtmf_mode, _add_fkeys,
    _add_mpk, _add_v2_fkeys, _add_dns.
  local; try apply frames_mpk_loop.
  apply frames_set_dns_parts, derived_dns_key.
Qed.

(** C8 (amended): whatever the enrichment does, and whether it returns
    or raises, a key it has added is [timezone] or starts with [XX_]; a
    key that does not start with [XX_] and is neither [timezone] nor
    [sip_lines] keeps its entry; and [sip_lines] keeps its lines, each
    with its entries, except that an [autoprov] password may have become
    the empty string. *)
Theorem enrich_frame (model : value) (st : state) :
  let rc := raw_config st in
  let rc' := raw_config (enrich model st).2 in
  (forall k, rc !! k = None -> is_Some (rc' !! k) ->
             k = "timezone" \/ String.prefix "XX_" k = true) /\
  (forall k, String.prefix "XX_" k = false -> k <> "timezone" -> k <> "sip_lines" ->
             rc' !! k = rc !! k) /\
  match rc !! "sip_lines" with
  | Some (VDict ls) => exists ls', rc' !! "sip_lines" = Some (VDict ls') /\ lines_kept ls ls'
  | o => rc' !! "sip_lines" = o
  end.
Proof.
  intros rc rc'.
  assert (Hstep : forall k, derived_key k = false ->
            rc' !! k = raw_config (_check_lines_password st).2 !! k).
  { intros k Hk. subst rc'. unfold enrich. unfold bind at 1.
    destruct (_check_lines_password st) as [[[]|e] st1]; [|reflexivity].
    apply (frames_later_steps model st1 k Hk). }
  assert (Hlines : match rc !! "sip_lines" with
                   | Some (VDict ls) =>
                       exists ls', rc' !! "sip_lines" = Some (VDict ls') /\ lines_kept ls ls'
                   | o => rc' !! "sip_lines" = o
                   end).
  { rewrite (Hstep "sip_lines" eq_refl), check_lines_password_lines. subst rc.
    destruct (raw_config st !! "sip_lines") as [[]|]; try reflexivity.
    eexists. split; [reflexivity | apply check_lines_kept]. }
  assert (Hother : forall k, String.prefix "XX_" k = false -> k <> "timezone" ->
             k <> "sip_lines" -> rc' !! k = rc !! k).
  { intros k Hxx Htz Hsl. rewrite Hstep.
    - apply (run_step_frames CheckLinesPassword st k). cbn [footprint one_of existsb].
      destruct (String.eqb_spec k "sip_lines"); [congruence | reflexivity].
    - unfold derived_key. rewrite Hxx.
      destruct (String.eqb_spec k "timezone"); [congruence | reflexivity]. }
  split; [|split; assumption].
  intros k Hnone Hsome.
  destruct (String.prefix "XX_" k) eqn:Hxx; [right; reflexivity|].
  destruct (decide (k = "timezone")) as [->|Htz]; [left; reflexivity|].
  exfalso. destruct (decide (k = "sip_lines")) as [->|Hsl].
  - rewrite Hnone in Hlines. rewrite Hlines in Hsome. destruct Hsome as [? [=]].
  - rewrite (Hother k Hxx Htz Hsl), Hnone in Hsome. destruct Hsome as [? [=]].
Qed.

(** C8, as stated, fails: the password of a sip line does not keep its
    value when it is [autoprov]. *)
Lemma enrich_blanks_autoprov_password :
  let st := State (<["sip_lines" := VDict [("1", VDict [("password", VStr "autoprov")])]]>
                     (<["funckeys" := VDict []]> ∅)) [] in
  raw_config st !! "sip_lines" = Some (VDict [("1", VDict [("password", VStr "autoprov")])]) /\
  (enrich (VStr "GXP2160") st).1 = Return tt /\
  raw_config (enrich (VStr "GXP2160") st).2 !! "sip_lines" =
    Some (VDict [("1", VDict [("password", VStr "")])]).
Proof. repeat split; vm_compute; reflexivity. Qed.

(** A timezone that [TZ_NAME] does not list is replaced under its own
    key, and [XX_timezone] is not set. *)
Example add_timezone_overwrites :
  let st := State (<["timezone" := VStr "America/Montreal"]> ∅) [] in
  raw_config (_add_timezone st).2 !! "timezone" =
    Some (VStr "CET-1CEST-2,M3.5.0/02:00:00,M10.5.0/03:00:00") /\
  raw_config (_add_timezone st).2 !! "XX_timezone" = None.
Proof. split; vm_compute; reflexivity. Qed.

Example add_timezone_known :
  let st := State (<["timezone" := VStr "Europe/Paris"]> ∅) [] in
  raw_config (_add_timezone st).2 !! "timezone" = Some (VStr "Europe/Paris") /\
  raw_config (_add_timezone st).2 !! "XX_timezone" =
    Some (VStr "CET-1CEST-2,M3.5.0/02:00:00,M10.5.0/03:00:00").
Proof. split; vm_compute; reflexivity. Qed.

(** ** Steps whose input is absent *)

Lemma add_sip_transport_absent (st : state) :
  raw_config st !! "sip_transport" = None -> _add_sip_transport st = (Return tt, st).
Proof. intros H. unfold _add_sip_transport, bind, rc_get. rewrite H. reflexivity. Qed.

Lemma add_locale_absent (st : state) :
  raw_config st !! "locale" = None -> _add_locale st = (Return tt, st).
Proof. intros H. unfold _add_locale, bind, rc_get. rewrite H. reflexivity. Qed.

Lemma add_dtmf_mode_absent (st : state) :
  raw_config st !! "sip_dtmf_mode" = None -> _add_dtmf_mode st = (Return tt, st).
Proof. intros H. unfold _add_dtmf_mode, bind, rc_get. rewrite H. reflexivity. Qed.

Lemma add_dns_absent (st : state) :
  raw_config st !! "dns_enabled" = None -> _add_dns st = (Return tt, st).
Proof. intros H. unfold _add_dns, bind, rc_get. rewrite H. reflexivity. Qed.

Lemma check_lines_ok (ls : list (string * value)) :
  Forall has_password ls -> (check_lines ls).2 = None.
Proof.
  induction 1 as [|[k line] ls (d & Hd & [p Hp]) _ IH]; [reflexivity|].
  cbn [check_lines]. cbn [snd] in Hd. subst line. rewrite Hp.
  destruct (check_lines ls) as [r e]. exact IH.
Qed.

Lemma check_lines_password_run (ls : list (string * value)) (st : state) :
  raw_config st !! "sip_lines" = Some (VDict ls) ->
  Forall has_password ls ->
  _check_lines_password st =
    (Return tt, State (<["sip_lines" := VDict (check_lines ls).1]> (raw_config st)) (log st)).
Proof.
  intros Hsl Hls. apply check_lines_ok in Hls.
  unfold _check_lines_password, bind, rc_item. rewrite Hsl.
  destruct (check_lines ls) as [ls' e]. cbn [snd] in Hls. subst e. reflexivity.
Qed.

Lemma add_timezone_run (st : state) :
  (forall v, raw_config st !! "timezone" = Some v -> hashable v = true) ->
  exists k name,
    (k = "timezone" \/ k = "XX_timezone") /\
    _add_timezone st = (Return tt, State (<[k := VStr name]> (raw_config st)) (log st)).
Proof.
  intros Hh. unfold _add_timezone, bind, rc_lookup. cbn [fst snd].
  destruct (raw_config st !! "timezone") as [v|] eqn:Htz.
  - unfold lift, table_find. rewrite (Hh v eq_refl).
    destruct v; try (eexists "timezone", _; split; [left; reflexivity | reflexivity]).
    cbn [TZ_NAME List.find fst].
    destruct (String.eqb "Europe/Paris" s).
    + eexists "XX_timezone", _. split; [right; reflexivity | reflexivity].
    + eexists "timezone", _. split; [left; reflexivity | reflexivity].
  - eexists "timezone", _. split; [left; reflexivity | reflexivity].
Qed.

Lemma add_fkeys_run (items : list (string * value)) (st : state) :
  raw_config st !! "funckeys" = Some (VDict items) ->
  _add_fkeys st = (Return tt, State (<["XX_fkeys" := VList []]> (raw_config st)) (log st)).
Proof. intros H. unfold _add_fkeys, bind, rc_item. rewrite H. reflexivity. Qed.

Lemma add_mpk_no_keys (model : value) (st : state) :
  raw_config st !! "funckeys" = Some (VDict []) ->
  _add_mpk model st =
    (Return tt, State (<["XX_mpk" := VList []]> (raw_config st)) (log st ++ [Log INFO model []])).
Proof.
  intros H. unfold _add_mpk, bind, logger, rc_item. cbn [raw_config]. rewrite H. reflexivity.
Qed.

(** *** The steps that stay when the optional inputs are absent *)

Lemma determined_mpk_loop (W : string -> bool) (model : value)
    (items : list (string * value)) (loc : mpk_locals) :
  determined W (mpk_loop model items loc).
Proof.
  revert loc. induction items as [|item items IH]; intros loc; cbn [mpk_loop].
  - apply determined_ret.
  - apply determined_bind.
    + unfold mpk_step, mpk_dispatch, mpk_emit. local.
    + intros r. destruct r.1; [apply IH | apply determined_ret].
Qed.

Lemma determined_add_fkeys : determined (one_of ["funckeys"]) _add_fkeys.
Proof. unfold _add_fkeys. local. Qed.

Lemma determined_add_mpk (model : value) : determined (one_of ["funckeys"]) (_add_mpk model).
Proof. unfold _add_mpk. local. apply determined_mpk_loop. Qed.

Lemma frames_check_lines_password : frames required_keys _check_lines_password.
Proof. unfold _check_lines_password. local. Qed.

Lemma frames_add_timezone : frames required_keys _add_timezone.
Proof. unfold _add_timezone. local. Qed.

Lemma frames_add_fkeys : frames required_keys _add_fkeys.
Proof. unfold _add_fkeys. local. Qed.

Lemma frames_add_fkeys_own : frames (one_of ["XX_fkeys"]) _add_fkeys.
Proof. unfold _add_fkeys. local. Qed.

Lemma frames_add_mpk (model : value) : frames required_keys (_add_mpk model).
Proof. unfold _add_mpk. local. apply frames_mpk_loop. Qed.

Lemma frames_add_v2_fkeys (model : value) : frames required_keys (_add_v2_fkeys model).
Proof. unfold _add_v2_fkeys. local. Qed.



(** Two binds of the same computation agree when their continuations
    agree on what it returns. *)
Lemma bind_congr {A B : Type} (m : M A) (f g : A -> M B) (st : state) :
  (forall a, (m st).1 = Return a -> f a (m st).2 = g a (m st).2) ->
  bind m f st = bind m g st.
Proof.
  intros H. unfold bind. destruct (m st) as [[a|e] st']; [|reflexivity].
  apply (H a). reflexivity.
Qed.


(** With the four optional inputs absent, the enrichment is the
    enrichment without the four steps that read them: same outcome, same
    mapping, same log. *)
Lemma enrich_skips_absent (model : value) (st : state) :
  raw_config st !! "sip_transport" = None -> raw_config st !! "locale" = None ->
  raw_config st !! "sip_dtmf_mode" = None -> raw_config st !! "dns_enabled" = None ->
  enrich model st = enrich_required model st.
Proof.
  intros Ht Hl Hd Hn. unfold enrich, enrich_required.
  apply bind_congr. intros [] _.
  pose proof (frames_check_lines_password st) as F1.
  set (s1 := (_check_lines_password st).2) in *.
  erewrite bind_return by (apply add_sip_transport_absent; rewrite F1 by reflexivity; exact Ht).
  apply bind_congr. intros [] _.
  pose proof (frames_add_timezone s1) as F2.
  set (s2 := (_add_timezone s1).2) in *.
  erewrite bind_return
    by (apply add_locale_absent; rewrite F2, F1 by reflexivity; exact Hl).
  erewrite bind_return
    by (apply add_dtmf_mode_absent; rewrite F2, F1 by reflexivity; exact Hd).
  apply bind_congr. intros [] _.
  pose proof (frames_add_fkeys s2) as F3.
  set (s3 := (_add_fkeys s2).2) in *.
  apply bind_congr. intros [] _.
  pose proof (frames_add_mpk model s3) as F4.
  set (s4 := (_add_mpk model s3).2) in *.
  pose proof (frames_add_v2_fkeys model s4) as F5.
  unfold bind. destruct (_add_v2_fkeys model s4) as [[[]|e] s5] eqn:E5; [|reflexivity].
  cbn [snd] in F5.
  apply add_dns_absent. rewrite F5, F4, F3, F2, F1 by reflexivity. exact Hn.
Qed.

(** The remaining steps read keys that the steps before them do not
    write, so each of them returns in the enrichment exactly when it
    returns on the raw config [configure] was given. *)
Lemma enrich_required_returns (model : value) (st : state) :
  (enrich_required model st).1 = Return tt <->
  (_check_lines_password st).1 = Return tt /\ (_add_timezone st).1 = Return tt /\
  (_add_fkeys st).1 = Return tt /\ (_add_mpk model st).1 = Return tt.
Proof.
  pose proof (run_step_frames CheckLinesPassword st) as F1.
  pose proof (run_step_frames AddTimezone (_check_lines_password st).2) as F2.
  pose proof (frames_add_fkeys_own (_add_timezone (_check_lines_password st).2).2) as F3.
  cbn [run_step] in F1, F2.
  assert (O2 : (_add_timezone (_check_lines_password st).2).1 = (_add_timezone st).1).
  { refine (proj1 (run_step_determined AddTimezone _ _ _)). intros k Hk. apply F1.
    cbn [footprint one_of existsb] in Hk. split_keys Hk; try discriminate Hk;
      apply String.eqb_eq in Hk; subst k; reflexivity. }
  assert (O3 : (_add_fkeys (_add_timezone (_check_lines_password st).2).2).1
               = (_add_fkeys st).1).
  { refine (proj1 (determined_add_fkeys _ _ _)). intros k Hk.
    cbn [one_of existsb] in Hk. split_keys Hk; try discriminate Hk.
    apply String.eqb_eq in Hk. subst k. rewrite F2, F1 by reflexivity. reflexivity. }
  assert (O4 : (_add_mpk model
                  (_add_fkeys (_add_timezone (_check_lines_password st).2).2).2).1
               = (_add_mpk model st).1).
  { refine (proj1 (determined_add_mpk model _ _ _)). intros k Hk.
    cbn [one_of existsb] in Hk. split_keys Hk; try discriminate Hk.
    apply String.eqb_eq in Hk. subst k. rewrite F3, F2, F1 by reflexivity. reflexivity. }
  clear F1 F2 F3. unfold enrich_required, bind.
  destruct (_check_lines_password st) as [o1 s1]. cbn [fst snd] in *.
  destruct (_add_timezone s1) as [o2 s2]. cbn [fst snd] in *.
  destruct (_add_fkeys s2) as [o3 s3]. cbn [fst snd] in *.
  destruct (_add_mpk model s3) as [o4 s4]. cbn [fst snd] in *.
  rewrite <- O2, <- O3, <- O4.
  destruct o1 as [[]|e1]; [|cbn; split; [discriminate | intros [H _]; discriminate H]].
  destruct o2 as [[]|e2]; [|cbn; split; [discriminate | intros (_ & H & _); discriminate H]].
  destruct o3 as [[]|e3]; [|cbn; split; [discriminate | intros (_ & _ & H & _); discriminate H]].
  destruct o4 as [[]|e4]; [|cbn; split; [discriminate | intros (_ & _ & _ & H); discriminate H]].
  cbn. tauto.
Qed.




(** A sufficient condition on the data: every line a dictionary with a
    password, a [timezone] that can be looked up, and no function key. *)
Lemma enrich_returns_without_keys (model : value) (ls : list (string * value)) (st : state) :
  raw_config st !! "sip_lines" = Some (VDict ls) ->
  Forall has_password ls ->
  raw_config st !! "funckeys" = Some (VDict []) ->
  (forall v, raw_config st !! "timezone" = Some v -> hashable v = true) ->
  raw_config st !! "sip_transport" = None -> raw_config st !! "locale" = None ->
  raw_config st !! "sip_dtmf_mode" = None -> raw_config st !! "dns_enabled" = None ->
  (enrich model st).1 = Return tt.
Proof.
  intros Hsl Hls Hfk Htz Ht Hl Hd Hn.
  rewrite (enrich_skips_absent model st Ht Hl Hd Hn).
  apply enrich_required_returns.
  split; [rewrite (check_lines_password_run ls st Hsl Hls); reflexivity|].
  split; [destruct (add_timezone_run st Htz) as (k & name & _ & ->); reflexivity|].
  split; [rewrite (add_fkeys_run [] st Hfk); reflexivity|].
  rewrite (add_mpk_no_keys model st Hfk). reflexivity.
Qed.

(** With a function key and a model [_add_mpk] does not name, the
    enrichment raises although every optional input is absent. *)
Example enrich_unknown_model_raises :
  (enrich (VStr "GXP1625") (State keyed_config [])).1 = Raise (UnboundLocalError "key_mode_id").
Proof. vm_compute. reflexivity. Qed.


Example configure_without_funckeys_raises :
  let st := State (<["http_port" := VInt 8667]> (<["sip_lines" := VDict []]> ∅)) [] in
  (configure (fun _ => Return "000b8240d55c") (fun _ _ => Return VNone)
      (fun _ _ _ => Return tt) "/var/lib/tftpboot/Grandstream" sample_device st).1 =
    Raise (KeyError (VStr "funckeys")).
Proof. vm_compute. reflexivity. Qed.

Example configure_minimal_config :
  (configure (fun _ => Return "000b8240d55c") (fun _ _ => Return VNone)
      (fun _ _ _ => Return tt) "/var/lib/tftpboot/Grandstream" sample_device
      (State minimal_config [])).1 = Return tt.
Proof. vm_compute. reflexivity. Qed.

Example add_dtmf_mode_sip_info :
  let st := State (<["sip_dtmf_mode" := VStr "SIP-INFO"]> ∅) [] in
  let rc' := raw_config (_add_dtmf_mode st).2 in
  rc' !! "XX_dtmf_in_audio" = Some (VStr "No") /\
  rc' !! "XX_dtmf_in_rtp" = Some (VStr "No") /\
  rc' !! "XX_dtmf_in_sip" = Some (VStr "Yes").
Proof. repeat split; vm_compute; reflexivity. Qed.

(** * Further properties of the plugin *)

(** ** [_add_dns] *)

Lemma dns_key_inj (n m : Z) : dns_key n = dns_key m -> n = m.
Proof.
  unfold dns_key. intros H. apply (inj (String.app "XX_dns_")) in H.
  apply (inj pretty) in H. exact H.
Qed.

Lemma set_dns_parts_run (parts : list string) (n : Z) (st : state) :
  (set_dns_parts n parts st).1 = Return tt /\
  log (set_dns_parts n parts st).2 = log st /\
  (forall k, (forall j, n <= j < n + Z.of_nat (length parts) -> k <> dns_key j) ->
             raw_config (set_dns_parts n parts st).2 !! k = raw_config st !! k) /\
  (forall i part, parts !! i = Some part ->
     raw_config (set_dns_parts n parts st).2 !! dns_key (n + Z.of_nat i) = Some (VStr part)).
Proof.
  revert n st. induction parts as [|p parts IH]; intros n st.
  - repeat split. intros i part H. destruct i; discriminate H.
  - cbn [set_dns_parts]. unfold bind at 1 2 3 4, rc_set at 1 2 3 4. cbn [fst snd].
    set (st1 := State (<["XX_dns_" +:+ pretty n := VStr p]> (raw_config st)) (log st)).
    destruct (IH (n + 1) st1) as (Hret & Hlog & Hframe & Hparts).
    split; [exact Hret|]. split; [exact Hlog|]. split.
    + intros k Hk. cbn [length] in Hk.
      rewrite Hframe by (intros j Hj; apply Hk; lia).
      subst st1. cbn [raw_config]. apply lookup_insert_ne.
      intros E. apply (Hk n); [lia | symmetry; exact E].
    + intros [|i] part Hi.
      * injection Hi as ->. rewrite Z.add_0_r.
        rewrite Hframe by (intros j Hj E; apply dns_key_inj in E; lia).
        subst st1. cbn [raw_config]. apply lookup_insert_eq.
      * replace (n + Z.of_nat (S i)) with (n + 1 + Z.of_nat i) by lia.
        apply Hparts. exact Hi.
Qed.

Lemma split_on_nonempty (sep : ascii) (s : string) : split_on sep s <> [].
Proof.
  destruct s as [|a s]; cbn [split_on]; [discriminate|].
  destruct (Ascii.eqb a sep); [discriminate|].
  destruct (split_on sep s); discriminate.
Qed.

Lemma join_cons_char (sep : string) (a : ascii) (p : string) (ps : list string) :
  join sep (String a p :: ps) = String a (join sep (p :: ps)).
Proof. destruct ps; reflexivity. Qed.

Lemma join_split_on (sep : ascii) (s : string) :
  join (String sep "") (split_on sep s) = s.
Proof.
  induction s as [|a s IH]; [reflexivity|]. cbn [split_on].
  destruct (Ascii.eqb_spec a sep) as [->|Hne].
  - pose proof (split_on_nonempty sep s) as Hn.
    destruct (split_on sep s) as [|p ps] eqn:E; [congruence|].
    change (join (String sep "") ("" :: p :: ps))
      with (String sep (join (String sep "") (p :: ps))).
    rewrite IH. reflexivity.
  - pose proof (split_on_nonempty sep s) as Hn.
    destruct (split_on sep s) as [|p ps] eqn:E; [congruence|].
    rewrite join_cons_char, IH. reflexivity.
Qed.

(** X1: with [dns_enabled] truthy and a string under [dns_ip],
    [_add_dns] returns, logs nothing, stores the parts of the address
    between dots under [XX_dns_1], [XX_dns_2], ... in order, leaves
    every key other than [XX_dns_1] .. [XX_dns_n], [n] the number of
    parts, as it was ([XX_dns_<n+1>] and beyond included), and the stored
    parts joined by dots are the address. *)
Theorem add_dns_round_trip (st : state) (enabled : value) (s : string) :
  raw_config st !! "dns_enabled" = Some enabled -> truthy enabled = true ->
  raw_config st !! "dns_ip" = Some (VStr s) ->
  let st' := (_add_dns st).2 in
  let parts := split_on "." s in
  (_add_dns st).1 = Return tt /\ log st' = log st /\
  (forall i part, parts !! i = Some part ->
     raw_config st' !! dns_key (1 + Z.of_nat i) = Some (VStr part)) /\
  (forall k, (forall i, (i < length parts)%nat -> k <> dns_key (1 + Z.of_nat i)) ->
             raw_config st' !! k = raw_config st !! k) /\
  join "." parts = s.
Proof.
  intros He Ht Hip st' parts. subst st' parts.
  assert (Hrun : _add_dns st = set_dns_parts 1 (split_on "." s) st).
  { unfold _add_dns, bind, rc_get, rc_item. rewrite He.
    change (default VNone (Some enabled)) with enabled. cbn [fst snd]. rewrite Ht, Hip.
    reflexivity. }
  rewrite Hrun.
  destruct (set_dns_parts_run (split_on "." s) 1 st) as (Hret & Hlog & Hframe & Hparts).
  split; [exact Hret|]. split; [exact Hlog|]. split; [exact Hparts|].
  split; [|apply join_split_on].
  intros k Hk. apply Hframe. intros j Hj.
  replace j with (1 + Z.of_nat (Z.to_nat (j - 1))) by lia.
  apply Hk. lia.
Qed.

Lemma add_dns_round_trip_witness :
  let st := State (<["dns_enabled" := VBool true]> (<["dns_ip" := VStr "10.0.0.254"]> ∅)) [] in
  let st' := (_add_dns st).2 in
  let parts := split_on "." "10.0.0.254" in
  (_add_dns st).1 = Return tt /\ log st' = log st /\
  (forall i part, parts !! i = Some part ->
     raw_config st' !! dns_key (1 + Z.of_nat i) = Some (VStr part)) /\
  (forall k, (forall i, (i < length parts)%nat -> k <> dns_key (1 + Z.of_nat i)) ->
             raw_config st' !! k = raw_config st !! k) /\
  join "." parts = "10.0.0.254".
Proof.
  intros st.
  apply (add_dns_round_trip st (VBool true) "10.0.0.254"); reflexivity.
Defined.

(** A stale fifth part, left by an earlier address with more parts, is
    not overwritten by a four-part address. *)
Example add_dns_keeps_later_parts :
  let st := State (<["dns_enabled" := VBool true]>
                     (<["dns_ip" := VStr "10.0.0.254"]> (<["XX_dns_5" := VStr "old"]> ∅))) [] in
  raw_config (_add_dns st).2 !! "XX_dns_5" = Some (VStr "old") /\
  raw_config (_add_dns st).2 !! "XX_dns_4" = Some (VStr "254").
Proof. split; vm_compute; reflexivity. Qed.

Example split_on_dots : split_on "." "10.0.0.254" = ["10"; "0"; "0"; "254"].
Proof. reflexivity. Qed.

Example split_on_edges :
  split_on "." "" = [""] /\ split_on "." "." = [""; ""] /\ split_on "." "a..b" = ["a"; ""; "b"].
Proof. repeat split. Qed.

(** ** [_add_dtmf_mode] *)

(** X2: [_add_dtmf_mode] is all or nothing: either it leaves the state
    as it found it (mode absent or falsy, or a raise on a mode outside
    [DTMF_MODES]), or it returns having set the three keys to the row of
    the mode, and nothing else. *)
Theorem add_dtmf_mode_all_or_nothing (st : state) :
  let r := _add_dtmf_mode st in
  r.2 = st \/
  (r.1 = Return tt /\
   exists mode audio rtp sip,
     raw_config st !! "sip_dtmf_mode" = Some (VStr mode) /\
     In (mode, (audio, rtp, sip)) DTMF_MODES /\
     r.2 = State (<["XX_dtmf_in_sip" := VStr sip]>
                    (<["XX_dtmf_in_rtp" := VStr rtp]>
                       (<["XX_dtmf_in_audio" := VStr audio]> (raw_config st)))) (log st)).
Proof.
  cbn zeta. unfold _add_dtmf_mode, bind, rc_get, rc_item.
  destruct (raw_config st !! "sip_dtmf_mode") as [mode|] eqn:Hm; [|left; reflexivity].
  change (default VNone (Some mode)) with mode. cbn [fst snd].
  destruct (truthy mode); [|left; reflexivity].
  rewrite Hm.
  unfold lift, table_item, table_find.
  destruct (hashable mode); [|left; reflexivity].
  destruct mode as [| | |s| | |]; try (left; reflexivity).
  match goal with
  | |- context [List.find ?f ?l] =>
      destruct (List.find f l) as [[k [[audio rtp] sip]]|] eqn:Hf
  end; [|left; reflexivity].
  right. apply find_some in Hf as [Hin Hk]. cbn [fst] in Hk. apply String.eqb_eq in Hk as ->.
  split; [reflexivity|]. exists s, audio, rtp, sip. split; [reflexivity|].
  split; [exact Hin | reflexivity].
Qed.

Example add_dtmf_mode_unknown :
  let st := State (<["sip_dtmf_mode" := VStr "RFC2833"]> ∅) [] in
  _add_dtmf_mode st = (Raise (KeyError (VStr "RFC2833")), st).
Proof. reflexivity. Qed.

(** ** [_add_timezone] *)

(** X3: whatever the configured timezone, the only rule [_add_timezone]
    ever writes is the one of Europe/Paris: under [XX_timezone] when the
    timezone is Europe/Paris, and otherwise (absent, or any other value
    that can be hashed) under [timezone] itself, replacing what was
    there. *)
Theorem add_timezone_writes_paris (st : state) :
  (forall v, raw_config st !! "timezone" = Some v -> hashable v = true) ->
  let key :=
    if eq_str (default VNone (raw_config st !! "timezone")) "Europe/Paris"
    then "XX_timezone" else "timezone" in
  _add_timezone st = (Return tt, State (<[key := VStr PARIS_RULE]> (raw_config st)) (log st)).
Proof.
  intros Hh. cbn zeta. unfold _add_timezone, bind, rc_lookup. cbn [fst snd].
  destruct (raw_config st !! "timezone") as [v|] eqn:Htz; [|reflexivity].
  change (default VNone (Some v)) with v.
  unfold lift, table_find. rewrite (Hh v eq_refl).
  destruct v as [| | |s| | |]; try reflexivity.
  cbn [TZ_NAME List.find fst eq_str]. rewrite (String.eqb_sym s).
  destruct (String.eqb "Europe/Paris" s); reflexivity.
Qed.

Lemma add_timezone_writes_paris_witness :
  let st := State (<["timezone" := VStr "America/Montreal"]> ∅) [] in
  let key :=
    if eq_str (default VNone (raw_config st !! "timezone")) "Europe/Paris"
    then "XX_timezone" else "timezone" in
  _add_timezone st = (Return tt, State (<[key := VStr PARIS_RULE]> (raw_config st)) (log st)).
Proof.
  intros st.
  apply (add_timezone_writes_paris st).
  intros v H. vm_compute in H. injection H as <-. reflexivity.
Defined.

Example add_timezone_unhashable :
  let st := State (<["timezone" := VList [VStr "Europe/Paris"]]> ∅) [] in
  _add_timezone st = (Raise TypeError, st).
Proof. reflexivity. Qed.

(** ** [_check_lines_password] *)

Lemma check_lines_settled (ls : list (string * value)) :
  (check_lines ls).2 = None -> Forall password_settled (check_lines ls).1.
Proof.
  induction ls as [|[k line] ls IH]; [constructor|].
  cbn [check_lines]. destruct line; try discriminate.
  destruct (assoc "password" d) as [p|] eqn:Hp; [|discriminate].
  destruct (check_lines ls) as [r e]. cbn [fst snd] in *. intros He.
  constructor; [|exact (IH He)].
  destruct (eq_str p "autoprov") eqn:Hauto.
  - exists (assoc_set "password" (VStr "") d), (VStr "").
    repeat split. apply assoc_set_same.
  - exists d, p. auto.
Qed.

Lemma check_lines_fixed (ls : list (string * value)) :
  Forall password_settled ls -> check_lines ls = (ls, None).
Proof.
  induction 1 as [|[k line] ls (d & p & Hd & Hp & Hauto) _ IH]; [reflexivity|].
  cbn [snd] in Hd. subst line. cbn [check_lines]. rewrite Hp, Hauto, IH. reflexivity.
Qed.

(** X4: when [_check_lines_password] returns, every sip line is a
    dictionary whose password is not [autoprov], and running it again
    changes nothing. *)
Theorem check_lines_password_settles (st : state) :
  (_check_lines_password st).1 = Return tt ->
  let st' := (_check_lines_password st).2 in
  (exists ls', raw_config st' !! "sip_lines" = Some (VDict ls') /\
               Forall password_settled ls') /\
  _check_lines_password st' = (Return tt, st').
Proof.
  intros Hret.
  assert (Hrun : exists ls', Forall password_settled ls' /\
            _check_lines_password st =
              (Return tt, State (<["sip_lines" := VDict ls']> (raw_config st)) (log st))).
  { revert Hret. unfold _check_lines_password, bind, rc_item.
    destruct (raw_config st !! "sip_lines") as [v|] eqn:Hsl; [|discriminate].
    destruct v as [| | | | | |ls]; try discriminate.
    pose proof (check_lines_settled ls) as Hs.
    destruct (check_lines ls) as [ls' [e|]]; [discriminate|]. intros _.
    exists ls'. split; [apply Hs; reflexivity | reflexivity]. }
  destruct Hrun as (ls' & Hs & Hrun). cbn zeta. rewrite Hrun. cbn [snd]. split.
  - exists ls'. split; [apply lookup_insert_eq | exact Hs].
  - unfold _check_lines_password, bind, rc_item, rc_set, ret. cbn [raw_config log].
    rewrite lookup_insert_eq, (check_lines_fixed ls' Hs). cbn [fst snd raw_config log].
    rewrite insert_insert_eq. reflexivity.
Qed.

Lemma check_lines_password_settles_witness :
  let st :=
    State (<["sip_lines" := VDict [("1", VDict [("password", VStr "autoprov")]);
                                   ("2", VDict [("password", VStr "secret")])]]> ∅) [] in
  let st' := (_check_lines_password st).2 in
  (exists ls', raw_config st' !! "sip_lines" = Some (VDict ls') /\
               Forall password_settled ls') /\
  _check_lines_password st' = (Return tt, st').
Proof.
  intros st.
  apply (check_lines_password_settles st).
  reflexivity.
Defined.

(** ** [_add_locale] *)

(** X5: for a locale given as a string, [_add_locale] returns; when the
    locale is one of [LOCALE] it sets [XX_locale] to the first two
    characters of the locale, its language, and otherwise it changes
    nothing. *)
Theorem add_locale_language (st : state) (s : string) :
  raw_config st !! "locale" = Some (VStr s) ->
  ((s ∈ LOCALE.*1) /\
   _add_locale st =
     (Return tt,
      State (<["XX_locale" := VStr (String.substring 0 2 s)]> (raw_config st)) (log st))) \/
  ((s ∉ LOCALE.*1) /\ _add_locale st = (Return tt, st)).
Proof.
  intros Hl. unfold _add_locale, bind, rc_get. rewrite Hl.
  change (default VNone (Some (VStr s))) with (VStr s).
  unfold lift, table_find. cbn [hashable LOCALE List.find fst snd fmap list_fmap].
  repeat match goal with
         | |- context [String.eqb ?k s] =>
             destruct (String.eqb_spec k s) as [<-|?];
             [left; split; [repeat constructor | reflexivity]|]
         end.
  right. split; [|reflexivity].
  rewrite !elem_of_cons, elem_of_nil. intuition congruence.
Qed.

Lemma add_locale_language_witness :
  let st := State (<["locale" := VStr "fr_CA"]> ∅) [] in
  (("fr_CA" ∈ LOCALE.*1) /\
   _add_locale st =
     (Return tt,
      State (<["XX_locale" := VStr (String.substring 0 2 "fr_CA")]> (raw_config st)) (log st))) \/
  (("fr_CA" ∉ LOCALE.*1) /\ _add_locale st = (Return tt, st)).
Proof.
  intros st.
  apply (add_locale_language st "fr_CA").
  reflexivity.
Defined.

(** ** [_add_mpk], further *)

Lemma mpk_loop_keeps_config (model : value) (items : list (string * value))
    (loc : mpk_locals) (st : state) :
  raw_config (mpk_loop model items loc st).2 = raw_config st.
Proof.
  apply map_eq. intros k.
  apply (frames_mpk_loop (fun _ => false) model items loc st k). reflexivity.
Qed.

(** X6: [_add_mpk] is all or nothing on the raw config: when it returns
    it has set [XX_mpk] to a list and changed no other key, and when it
    raises, whatever the model and the function keys, the raw config is
    as it was. *)
Theorem add_mpk_all_or_nothing (model : value) (st : state) :
  let r := _add_mpk model st in
  (exists ls, r.1 = Return tt /\ raw_config r.2 = <["XX_mpk" := VList ls]> (raw_config st)) \/
  (exists e, r.1 = Raise e /\ raw_config r.2 = raw_config st).
Proof.
  cbn zeta.
  unfold _add_mpk, bind, logger, rc_item. cbn [raw_config log].
  destruct (raw_config st !! "funckeys") as [v|]; [|right; eexists; split; reflexivity].
  destruct v as [| | | | | |items]; try (right; eexists; split; reflexivity).
  match goal with
  | |- context [mpk_loop ?m ?i ?l ?s] =>
      pose proof (mpk_loop_keeps_config m i l s) as Hk;
      destruct (mpk_loop m i l s) as [[loc|e] st2]
  end; cbn [fst snd raw_config] in *.
  - left. exists (lines loc). split; [reflexivity|]. unfold rc_set. cbn. rewrite Hk. reflexivity.
  - right. exists e. split; [reflexivity | exact Hk].
Qed.

(** A run of [_add_mpk] that returns has set [XX_mpk] and nothing else. *)
Lemma add_mpk_returns (model : value) (st st' : state) :
  _add_mpk model st = (Return tt, st') ->
  exists ls, raw_config st' = <["XX_mpk" := VList ls]> (raw_config st).
Proof.
  unfold _add_mpk, bind, logger, rc_item. cbn [raw_config log].
  destruct (raw_config st !! "funckeys") as [v|]; [|discriminate].
  destruct v as [| | | | | |items]; try discriminate.
  match goal with
  | |- context [mpk_loop ?m ?i ?l ?s] =>
      pose proof (mpk_loop_keeps_config m i l s) as Hk;
      destruct (mpk_loop m i l s) as [[loc|e] st2]
  end; cbn [fst snd raw_config] in *; [|discriminate].
  intros [= <-]. exists (lines loc). cbn. rewrite Hk. reflexivity.
Qed.

Lemma mpk_loop_break (model : string) (item : string * value) (rest : list (string * value))
    (loc : mpk_locals) (st : state) :
  (exists i, item_index item = Some i /\ out_of_range model i = true) ->
  mpk_loop (VStr model) (item :: rest) loc st = (Return loc, st).
Proof.
  intros (i & Hi & Ho).
  cbn [mpk_loop]. unfold bind at 1, mpk_step, bind at 1, lift at 1.
  change (py_int (VStr item.1))
    with (match int_of_string item.1 with Some z => Return z | None => Raise ValueError end).
  unfold item_index in Hi. rewrite Hi.
  unfold bind at 1. rewrite (mpk_dispatch_out_of_range model i _ st Ho). cbn.
  destruct loc; reflexivity.
Qed.

(** X7: on GXP2160 and GXP2130 the loop of [_add_mpk] ends at the first
    index past the keys of the model: [XX_mpk] holds the pairs of the
    entries iterated before it, and the entries after it are neither
    emitted nor looked at, be they in range or malformed. *)
Theorem add_mpk_stops_at_first_out_of_range
    (model : string) (pre : list (string * value)) (beyond : string * value)
    (rest : list (string * value)) (st : state) :
  model ∈ ["GXP2160"; "GXP2130"; "GXP2170"; "GXP2140"] ->
  raw_config st !! "funckeys" = Some (VDict (pre ++ beyond :: rest)) ->
  Forall (fun item => well_formed item /\
            exists i, item_index item = Some i /\ in_supported_range model i = true) pre ->
  (exists i, item_index beyond = Some i /\ out_of_range model i = true) ->
  exists lg,
    _add_mpk (VStr model) st =
      (Return tt,
       State (<["XX_mpk" := VList (flat_map (claimed_pairs model) pre)]> (raw_config st)) lg).
Proof.
  intros Hm Hfk Hpre Hbeyond.
  unfold _add_mpk. unfold bind at 1, logger at 1. unfold bind at 1, rc_item. cbn [raw_config].
  rewrite Hfk.
  destruct (mpk_loop_in_range model pre (beyond :: rest) Hm Hpre (MpkLocals [] None)
              (State (raw_config st) (log st ++ [Log INFO (VStr model) []])))
    as (lg & ids' & Hloop).
  unfold bind at 1. rewrite Hloop. cbn [lines raw_config app].
  rewrite (mpk_loop_break model beyond rest _ _ Hbeyond).
  exists lg. reflexivity.
Qed.

Lemma add_mpk_stops_at_first_out_of_range_witness :
  let pre := [("2", blf_key "1" "1002")] in
  let beyond := ("30", blf_key "1" "1030") in
  let rest := [("1", blf_key "1" "1001"); ("x", VNone)] in
  let st := State (<["funckeys" := VDict (pre ++ beyond :: rest)]> ∅) [] in
  exists lg,
    _add_mpk (VStr "GXP2160") st =
      (Return tt,
       State (<["XX_mpk" := VList (flat_map (claimed_pairs "GXP2160") pre)]> (raw_config st)) lg).
Proof.
  intros pre beyond rest st.
  apply (add_mpk_stops_at_first_out_of_range "GXP2160" pre beyond rest st).
  - repeat constructor.
  - reflexivity.
  - repeat constructor; try solve_well_formed; eexists; split; reflexivity.
  - eexists; split; reflexivity.
Defined.

Lemma add_mpk_gxp2135_empty_witness :
  let items := [("1", blf_key "1" "1001"); ("2", VNone)] in
  let st := State (<["funckeys" := VDict items]> ∅) [] in
  _add_mpk (VStr "GXP2135") st =
    (Return tt,
     State (<["XX_mpk" := VList []]> (raw_config st))
           (log st ++ [Log INFO (VStr "GXP2135") []])).
Proof.
  intros items st.
  apply (add_mpk_gxp2135_empty items st).
  - reflexivity.
  - repeat constructor; eexists; reflexivity.
Defined.

Ltac in_ids H := unfold ids_list in H; rewrite !elem_of_cons, elem_of_nil in H.

(** X9: the ids of the keys.  On GXP2160 and GXP2130, below index 7 the
    label id of key [i] is the account id of key [i+1] and its value id
    is the label id of key [i+1], so neighbouring keys write the same
    parameters; from index 8 on a key shares no id with any other key;
    and on GXP2170 and GXP2140 no two keys share an id. *)
Theorem mpk_ids_overlap_and_disjoint :
  (forall i old, i < 7 ->
     exists km a n v km' a' n' v',
       ids_2160 i old = Some (km, a, n, v) /\
       ids_2160 (i + 1) old = Some (km', a', n', v') /\ n = a' /\ v = n') /\
  (forall i j old t t' x, 8 <= i -> 1 <= j ->
     ids_2160 i old = Some t -> ids_2160 j old = Some t' ->
     x ∈ ids_list t -> x ∈ ids_list t' -> i = j) /\
  (forall i j x, x ∈ ids_list (ids_2170 i) -> x ∈ ids_list (ids_2170 j) -> i = j).
Proof.
  split; [|split].
  - intros i old Hi. unfold ids_2160.
    destruct (Z.ltb_spec i 8); [|lia]. destruct (Z.ltb_spec (i + 1) 8); [|lia].
    do 8 eexists. split; [reflexivity|]. split; [reflexivity|]. lia.
  - intros i j old t t' x Hi Hj Ht Ht' Hx Hx'. unfold ids_2160 in Ht, Ht'.
    destruct (Z.ltb_spec i 8); [lia|].
    destruct (Z.leb_spec 8 i); [|lia]. cbn [andb] in Ht.
    destruct (Z.ltb_spec j 8), (Z.leb_spec i 18), (Z.leb_spec 8 j), (Z.leb_spec j 18),
      (Z.leb_spec 19 i), (Z.leb_spec 19 j); cbn [andb] in Ht, Ht'; try lia;
      injection Ht as <-; injection Ht' as <-; in_ids Hx; in_ids Hx'; lia.
  - intros i j x Hx Hx'. unfold ids_2170 in Hx, Hx'. in_ids Hx. in_ids Hx'. lia.
Qed.

Example neighbouring_keys_share_a_code :
  let st := State (<["funckeys" := VDict [("1", labelled_key "blf" "1" "Alice" "1001");
                                          ("2", labelled_key "blf" "3" "Bob" "1002")]]> ∅) [] in
  raw_config (_add_mpk (VStr "GXP2160") st).2 !! "XX_mpk" =
    Some (VList [pair_of "P323" (VInt 1); pair_of "P301" (VInt 0);
                 pair_of "P302" (VStr "Alice"); pair_of "P303" (VStr "1001");
                 pair_of "P324" (VInt 1); pair_of "P302" (VInt 2);
                 pair_of "P303" (VStr "Bob"); pair_of "P304" (VStr "1002")]).
Proof. vm_compute. reflexivity. Qed.

(** ** What a completed enrichment has set *)

Lemma add_timezone_returns (st st' : state) :
  _add_timezone st = (Return tt, st') ->
  exists k, (k = "timezone" \/ k = "XX_timezone") /\
            raw_config st' = <[k := VStr PARIS_RULE]> (raw_config st).
Proof.
  unfold _add_timezone, bind, rc_lookup. cbn [fst snd].
  destruct (raw_config st !! "timezone") as [v|].
  - unfold lift, table_find. destruct (hashable v); [|discriminate].
    destruct v as [| | |s| | |];
      try (intros [= <-]; exists "timezone"; split; [left|]; reflexivity).
    cbn [TZ_NAME List.find fst]. destruct (String.eqb "Europe/Paris" s); intros [= <-].
    + exists "XX_timezone". split; [right|]; reflexivity.
    + exists "timezone". split; [left|]; reflexivity.
  - intros [= <-]. exists "timezone". split; [left|]; reflexivity.
Qed.

Lemma add_fkeys_returns (st st' : state) :
  _add_fkeys st = (Return tt, st') ->
  raw_config st' = <["XX_fkeys" := VList []]> (raw_config st).
Proof.
  unfold _add_fkeys, bind, rc_item.
  destruct (raw_config st !! "funckeys") as [v|]; [|discriminate].
  destruct v; try discriminate. intros [= <-]. reflexivity.
Qed.

Lemma run_step_keeps (s : step) (st st' : state) (o : outcome unit) (k : string) :
  run_step s st = (o, st') -> footprint s k = false ->
  raw_config st' !! k = raw_config st !! k.
Proof.
  intros Hrun Hk. pose proof (run_step_frames s st k Hk) as H.
  rewrite Hrun in H. exact H.
Qed.

(** X10: when the enrichment returns, [XX_fkeys] and [XX_v2_fkeys] are
    the empty list, [XX_mpk] is a list, and the rule of Europe/Paris
    stands under [timezone] or under [XX_timezone]. *)
Theorem enrich_postcondition (model : value) (st : state) :
  (enrich model st).1 = Return tt ->
  let rc' := raw_config (enrich model st).2 in
  rc' !! "XX_fkeys" = Some (VList []) /\
  rc' !! "XX_v2_fkeys" = Some (VList []) /\
  (exists ls, rc' !! "XX_mpk" = Some (VList ls)) /\
  (rc' !! "timezone" = Some (VStr PARIS_RULE) \/
   rc' !! "XX_timezone" = Some (VStr PARIS_RULE)).
Proof.
  unfold enrich, bind.
  destruct (_check_lines_password st) as [[[]|e1] s1] eqn:E1; [|discriminate].
  destruct (_add_sip_transport s1) as [[[]|e2] s2] eqn:E2; [|discriminate].
  destruct (_add_timezone s2) as [[[]|e3] s3] eqn:E3; [|discriminate].
  destruct (_add_locale s3) as [[[]|e4] s4] eqn:E4; [|discriminate].
  destruct (_add_dtmf_mode s4) as [[[]|e5] s5] eqn:E5; [|discriminate].
  destruct (_add_fkeys s5) as [[[]|e6] s6] eqn:E6; [|discriminate].
  destruct (_add_mpk model s6) as [[[]|e7] s7] eqn:E7; [|discriminate].
  unfold _add_v2_fkeys, rc_set.
  destruct (_add_dns _) as [[[]|e9] s9] eqn:E9; [|discriminate].
  intros _. cbn zeta. cbn [snd].
  pose proof (run_step_keeps AddLocale _ _ _ "timezone" E4 eq_refl) as L4.
  pose proof (run_step_keeps AddLocale _ _ _ "XX_timezone" E4 eq_refl) as L4'.
  pose proof (run_step_keeps AddDtmfMode _ _ _ "timezone" E5 eq_refl) as L5.
  pose proof (run_step_keeps AddDtmfMode _ _ _ "XX_timezone" E5 eq_refl) as L5'.
  pose proof (fun k => run_step_keeps AddDns _ _ _ k E9) as L9. cbn [raw_config] in L9.
  apply add_timezone_returns in E3 as (ktz & Hktz & R3).
  apply add_fkeys_returns in E6 as R6.
  apply add_mpk_returns in E7 as (ls & R7).
  rewrite !L9 by reflexivity. rewrite R7, R6.
  split; [rewrite !lookup_insert_ne by discriminate; apply lookup_insert_eq|].
  split; [apply lookup_insert_eq|].
  split; [eexists; rewrite lookup_insert_ne by discriminate; apply lookup_insert_eq|].
  rewrite !lookup_insert_ne by discriminate.
  rewrite L5, L5', L4, L4', R3.
  destruct Hktz as [-> | ->]; [left | right]; apply lookup_insert_eq.
Qed.

Lemma enrich_postcondition_witness :
  let st := State minimal_config [] in
  let rc' := raw_config (enrich (VStr "GXP2160") st).2 in
  rc' !! "XX_fkeys" = Some (VList []) /\
  rc' !! "XX_v2_fkeys" = Some (VList []) /\
  (exists ls, rc' !! "XX_mpk" = Some (VList ls)) /\
  (rc' !! "timezone" = Some (VStr PARIS_RULE) \/
   rc' !! "XX_timezone" = Some (VStr PARIS_RULE)).
Proof.
  intros st.
  apply (enrich_postcondition (VStr "GXP2160") st).
  vm_compute. reflexivity.
Defined.

(** ** The extractor, further *)

Lemma decode_ascii_Some (s s' : string) : decode_ascii s = Some s' -> s' = s.
Proof. unfold decode_ascii. destruct (all_ascii s); congruence. Qed.

Section ExtractorSoundness.
Variable norm_mac : string -> option string.

Lemma try_regex_Found_inv (r : regex) (ua : string) (d : gmap string value) :
  try_regex norm_mac r ua = Found d ->
  exists m v mac n,
    re_match r ua = Some [m; v; mac] /\ decode_ascii mac ≫= norm_mac = Some n /\
    d = dev_info m v n.
Proof.
  unfold try_regex. destruct (re_match r ua) as [caps|]; [|discriminate].
  destruct caps as [|m [|v [|mac [|x xs]]]]; try discriminate.
  destruct (decode_ascii mac ≫= norm_mac) as [n|] eqn:Hn; [|discriminate].
  destruct (decode_ascii m) as [m'|] eqn:Hm; [|discriminate].
  destruct (decode_ascii v) as [v'|] eqn:Hv; [|discriminate].
  apply decode_ascii_Some in Hm as ->. apply decode_ascii_Some in Hv as ->.
  intros [= <-]. exists m, v, mac, n. repeat split. exact Hn.
Qed.

Lemma try_regex_Next_inv (r : regex) (ua : string) (l : list log_entry) :
  try_regex norm_mac r ua = Next l ->
  (re_match r ua = None /\ l = []) \/
  (exists caps, re_match r ua = Some caps /\ l <> []).
Proof.
  unfold try_regex. destruct (re_match r ua) as [caps|]; [|intros [= <-]; left; auto].
  intros H. right. exists caps. split; [reflexivity|].
  destruct caps as [|m [|v [|mac [|x xs]]]]; try discriminate.
  destruct (decode_ascii mac ≫= norm_mac) as [n|].
  - destruct (decode_ascii m), (decode_ascii v); discriminate.
  - injection H as <-. discriminate.
Qed.

(** X11: a descriptor comes only from a match.  When the extractor
    returns a descriptor, nothing was logged, the vendor is Grandstream,
    and the model, version and address are the groups of a pattern that
    matches the User-Agent, the address as [norm_mac] gave it. *)
Theorem extract_from_ua_sound (ua : string) (d : gmap string value) (lg : list log_entry) :
  _extract_from_ua norm_mac ua = (Return (Some d), lg) ->
  lg = [] /\ d !! "vendor" = Some (VStr "Grandstream") /\
  exists r m v mac n,
    r ∈ _UA_REGEX_LIST /\ re_match r ua = Some [m; v; mac] /\
    decode_ascii mac ≫= norm_mac = Some n /\ d = dev_info m v n.
Proof.
  unfold _extract_from_ua, _UA_REGEX_LIST. cbn [extract_loop].
  destruct (try_regex norm_mac UA_REGEX_HW ua) as [d1|l1|e1] eqn:T1.
  - intros [= <- <-]. apply try_regex_Found_inv in T1 as (m & v & mac & n & Hm & Hn & ->).
    split; [reflexivity|]. split; [reflexivity|].
    exists UA_REGEX_HW, m, v, mac, n. repeat split; try assumption. repeat constructor.
  - destruct (try_regex norm_mac UA_REGEX_GXP2000 ua) as [d2|l2|e2] eqn:T2;
      [|discriminate|discriminate].
    intros [= <- <-]. apply try_regex_Found_inv in T2 as (m & v & mac & n & Hm & Hn & ->).
    apply try_regex_Next_inv in T1 as [[_ ->]|(caps & Hc & _)].
    + split; [reflexivity|]. split; [reflexivity|].
      exists UA_REGEX_GXP2000, m, v, mac, n. repeat split; try assumption. repeat constructor.
    + destruct (UA_REGEX_exclusive ua _ _ Hc Hm).
  - discriminate.
Qed.
End ExtractorSoundness.

Lemma extract_from_ua_sound_witness :
  [] = ([] : list log_entry) /\
  dev_info "GXP2160" "1.0.4.23" "00:0b:82:40:d5:5c" !! "vendor" = Some (VStr "Grandstream") /\
  exists r m v mac n,
    r ∈ _UA_REGEX_LIST /\ re_match r ua_gxp2160 = Some [m; v; mac] /\
    decode_ascii mac ≫= norm_mac_hex12 = Some n /\
    dev_info "GXP2160" "1.0.4.23" "00:0b:82:40:d5:5c" = dev_info m v n.
Proof.
  apply (extract_from_ua_sound norm_mac_hex12 ua_gxp2160
           (dev_info "GXP2160" "1.0.4.23" "00:0b:82:40:d5:5c") []).
  reflexivity.
Defined.

Lemma re_match_vendor_prefix (r : regex) (ua : string) (caps : list string) :
  r ∈ _UA_REGEX_LIST -> re_match r ua = Some caps -> String.prefix "Grandstream " ua = true.
Proof.
  intros Hr H. unfold _UA_REGEX_LIST in Hr. apply prefix_spec.
  apply elem_of_cons in Hr as [->|Hr]; [|apply elem_of_cons in Hr as [->|Hr]; [|inversion Hr]].
  - apply UA_REGEX_HW_inv in H as [[rest ->] _]. exists ("Model HW " +:+ rest). reflexivity.
  - apply UA_REGEX_GXP2000_inv in H as [[rest ->] _]. exists ("GXP2000" +:+ rest). reflexivity.
Qed.

(** X12: a request without a User-Agent, with an empty one, or with one
    that does not start with [Grandstream ] gives no descriptor, raises
    nothing and logs nothing, whatever [norm_mac] does. *)
Theorem do_extract_other_vendor (norm_mac : string -> option string) (ua : option string) :
  (forall s, ua = Some s -> String.prefix "Grandstream " s = false) ->
  _do_extract norm_mac ua = (Return None, []).
Proof.
  intros H. destruct ua as [s|]; [|reflexivity]. unfold _do_extract.
  destruct (truthy (VStr s)); [|reflexivity].
  apply extract_from_ua_no_match. intros r Hr.
  destruct (re_match r s) as [caps|] eqn:Hm; [|reflexivity].
  specialize (H s eq_refl). rewrite (re_match_vendor_prefix r s caps Hr Hm) in H.
  discriminate H.
Qed.

Lemma do_extract_other_vendor_witness :
  _do_extract norm_mac_hex12 (Some "Cisco-CP7960G/8.0") = (Return None, []).
Proof.
  apply (do_extract_other_vendor norm_mac_hex12 (Some "Cisco-CP7960G/8.0")).
  intros s [= <-]. reflexivity.
Defined.

Lemma append_assoc (s t u : string) : (s +:+ t) +:+ u = s +:+ t +:+ u.
Proof.
  induction s as [|a s IH]; [reflexivity|]. rewrite !append_cons, IH. reflexivity.
Qed.

Lemma star_match_total {R : Type} (c : ascii -> bool) (k : string -> option R) (s : string) :
  (forall s', is_Some (k s')) -> is_Some (star_match c k s).
Proof.
  intros Hk. induction s as [|a s IH]; simpl; [apply Hk|].
  destruct (c a); [|apply Hk].
  destruct (star_match c k s); [eexists; reflexivity | apply Hk].
Qed.

(** A greedy run whose continuation accepts anything takes the whole
    run. *)
Lemma star_match_greedy_inv {R : Type} (c : ascii -> bool) (k : string -> option R)
    (s : string) (r : R) :
  (forall s', is_Some (k s')) ->
  star_match c k s = Some r ->
  exists p s', s = p +:+ s' /\ all_chars c p = true /\ k s' = Some r /\ run_ends c s'.
Proof.
  intros Hk. induction s as [|a s IH]; simpl; intros H.
  - exists "", "". repeat split; assumption.
  - destruct (c a) eqn:Hc.
    + destruct (star_match_total c k s Hk) as [r' Hr']. rewrite Hr' in H, IH.
      injection H as ->. destruct (IH eq_refl) as (p & s' & -> & Hp & Hks & He).
      exists (String a p), s'. rewrite append_cons. simpl. rewrite Hc. auto.
    + exists "", (String a s). repeat split; assumption.
Qed.

Lemma last_group_inv (c : ascii -> bool) (s : string) (caps out : list string) :
  rmatch (Group (Plus c)) s caps (fun _ caps' => Some caps') = Some out ->
  exists p rest, s = p +:+ rest /\ p <> "" /\ all_chars c p = true /\
                 out = caps ++ [p] /\ run_ends c rest.
Proof.
  cbn [rmatch]. destruct s as [|a s]; [discriminate|].
  destruct (c a) eqn:Hc; [|discriminate]. intros H.
  apply star_match_greedy_inv in H as (p & rest & -> & Hp & Hk & He);
    [|intros; eexists; reflexivity].
  exists (String a p), rest. rewrite append_cons. repeat split; try assumption.
  - discriminate.
  - simpl. rewrite Hc. exact Hp.
  - injection Hk as <-. rewrite <- (append_cons a p rest), consumed_append. reflexivity.
Qed.

Lemma version_mac_shape (l1 l2 : string) (s : string) (caps out : list string) :
  rmatch (Seq (Lit l1) (Seq (Group (Plus not_space)) (Seq (Lit l2) (Group (Plus not_space)))))
    s caps (fun _ caps' => Some caps') = Some out ->
  exists v mac rest,
    out = caps ++ [v; mac] /\ s = (l1 +:+ v) +:+ l2 +:+ mac +:+ rest /\
    v <> "" /\ all_chars not_space v = true /\
    mac <> "" /\ all_chars not_space mac = true /\ run_ends not_space rest.
Proof.
  intros H.
  rewrite seq_eq in H. apply lit_inv in H as (s1 & -> & H).
  rewrite seq_eq in H. apply group_plus_inv in H as (v & s2 & -> & Hv0 & Hv & H).
  rewrite seq_eq in H. apply lit_inv in H as (s3 & -> & H).
  apply last_group_inv in H as (mac & rest & -> & Hm0 & Hm & -> & He).
  exists v, mac, rest. rewrite <- app_assoc, append_assoc. repeat split; assumption.
Qed.

(** X13: the groups of a match.  The model is a non-empty run of word
    characters; the version and the address are non-empty and hold no
    space; and the address is the whole run of non-space bytes after
    [ DevId ]: what follows it in the User-Agent is empty or starts with
    a space. *)
Theorem captured_groups_shape (r : regex) (ua m v mac : string) :
  r ∈ _UA_REGEX_LIST ->
  re_match r ua = Some [m; v; mac] ->
  (m <> "" /\ all_chars is_word m = true) /\
  (v <> "" /\ all_chars not_space v = true) /\
  (mac <> "" /\ all_chars not_space mac = true) /\
  exists before rest, ua = before +:+ " DevId " +:+ mac +:+ rest /\ run_ends not_space rest.
Proof.
  intros Hr H. unfold _UA_REGEX_LIST in Hr. unfold re_match in H.
  apply elem_of_cons in Hr as [->|Hr]; [|apply elem_of_cons in Hr as [->|Hr]; [|inversion Hr]].
  - unfold UA_REGEX_HW in H. cbn [seq_of] in H.
    rewrite seq_eq in H. apply lit_inv in H as (s1 & -> & H).
    rewrite seq_eq in H. apply group_plus_inv in H as (m' & s2 & -> & Hm0 & Hm & H).
    rewrite seq_eq in H. apply opt_inv in H as [H|H].
    + rewrite seq_eq in H. apply lit_inv in H as (s3 & -> & H).
      apply plus_inv in H as (x & s4 & -> & _ & _ & H).
      apply version_mac_shape in H
        as (v' & mac' & rest & [= <- <- <-] & -> & Hv0 & Hv & Hc0 & Hc & He).
      repeat split; try assumption.
      exists ("Grandstream Model HW " +:+ m +:+ " V" +:+ x +:+ " SW " +:+ v), rest.
      split; [|exact He]. rewrite <- !append_assoc. reflexivity.
    + apply version_mac_shape in H
        as (v' & mac' & rest & [= <- <- <-] & -> & Hv0 & Hv & Hc0 & Hc & He).
      repeat split; try assumption.
      exists ("Grandstream Model HW " +:+ m +:+ " SW " +:+ v), rest.
      split; [|exact He]. rewrite <- !append_assoc. reflexivity.
  - unfold UA_REGEX_GXP2000 in H. cbn [seq_of] in H.
    rewrite seq_eq in H. apply lit_inv in H as (s1 & -> & H).
    rewrite seq_eq in H. apply group_lit_inv in H as (s2 & -> & H).
    rewrite seq_eq in H. apply lit_inv in H as (s3 & -> & H).
    rewrite seq_eq in H. apply star_inv in H as (p & s4 & -> & _ & H).
    apply version_mac_shape in H
      as (v' & mac' & rest & [= -> <- <-] & -> & Hv0 & Hv & Hc0 & Hc & He).
    repeat split; try assumption; try discriminate.
    exists ("Grandstream GXP2000 " +:+ p +:+ ":" +:+ v +:+ ")"), rest.
    split; [|exact He].
    change (") DevId " +:+ mac +:+ rest) with (")" +:+ " DevId " +:+ mac +:+ rest).
    rewrite <- !append_assoc. reflexivity.
Qed.

Lemma captured_groups_shape_witness :
  ("GXP2000" <> "" /\ all_chars is_word "GXP2000" = true) /\
  ("1.1.6.9" <> "" /\ all_chars not_space "1.1.6.9" = true) /\
  ("000b822726c8" <> "" /\ all_chars not_space "000b822726c8" = true) /\
  exists before rest,
    ua_gxp2000 = before +:+ " DevId " +:+ "000b822726c8" +:+ rest /\ run_ends not_space rest.
Proof.
  apply (captured_groups_shape UA_REGEX_GXP2000 ua_gxp2000 "GXP2000" "1.1.6.9" "000b822726c8").
  - unfold _UA_REGEX_LIST. repeat constructor.
  - reflexivity.
Defined.

Example re_match_takes_whole_address :
  re_match UA_REGEX_HW "Grandstream Model HW GXP2160 SW 1.0.4.23 DevId 000b8240d55c/x y"
  = Some ["GXP2160"; "1.0.4.23"; "000b8240d55c/x"].
Proof. reflexivity. Qed.

(** ** [_format_code] *)

Lemma pretty_N_go_head (x : N) :
  (0 < x)%N -> forall s, exists c rest, pretty_N_go x s = String c rest /\ c <> "0"%char.
Proof.
  induction (N.lt_wf_0 x) as [x _ IH]. intros Hx s.
  rewrite pretty_N_go_step by exact Hx.
  destruct (decide (x < 10)%N) as [Hlt|Hge].
  - rewrite N.div_small, pretty_N_go_0, N.mod_small by exact Hlt.
    eexists _, _. split; [reflexivity|].
    assert (Hc : (x = 1 \/ x = 2 \/ x = 3 \/ x = 4 \/ x = 5 \/ x = 6 \/ x = 7 \/ x = 8 \/
                  x = 9)%N) by lia.
    repeat (destruct Hc as [->|Hc]; [discriminate|]). subst x. discriminate.
  - apply IH.
    + apply N.div_lt; lia.
    + apply N.div_str_pos. lia.
Qed.

Lemma pretty_ge_10_head (a : Z) (t : string) : 10 <= a -> pretty a <> "0" +:+ t.
Proof.
  intros Ha. destruct a as [|p|p]; try lia.
  change (pretty (Z.pos p)) with (pretty (N.pos p)). unfold pretty, pretty_N.
  destruct (decide (N.pos p = 0%N)) as [E|_]; [discriminate E|].
  destruct (pretty_N_go_head (N.pos p) ltac:(lia) "") as (c & rest & -> & Hc).
  intros [= E _]. congruence.
Qed.

Lemma format_code_lengths :
  forallb (fun n => Nat.eqb (String.length (_format_code (Z.of_nat n))) 4) (seq 0 100) = true.
Proof. vm_compute. reflexivity. Qed.

(** X14: [_format_code] gives different names to different codes, and
    for a code from 0 to 99 the name is [P3] followed by two characters:
    a code below ten is padded. *)
Theorem format_code_injective_padded :
  (forall a b, _format_code a = _format_code b -> a = b) /\
  (forall code, 0 <= code < 100 -> String.length (_format_code code) = 4%nat).
Proof.
  split.
  - intros a b H. unfold _format_code in H. apply (inj (String.app "P3")) in H.
    destruct (Z.leb_spec 10 a), (Z.leb_spec 10 b).
    + apply (inj pretty) in H. exact H.
    + destruct (pretty_ge_10_head a (pretty b)); assumption.
    + destruct (pretty_ge_10_head b (pretty a)); [assumption | symmetry; exact H].
    + apply (inj (String.app "0")) in H. apply (inj pretty) in H. exact H.
  - intros code Hc.
    pose proof format_code_lengths as H. rewrite forallb_forall in H.
    specialize (H (Z.to_nat code)). rewrite Z2Nat.id in H by lia.
    apply Nat.eqb_eq, H, in_seq. lia.
Qed.

Example format_code_examples :
  _format_code 1 = "P301" /\ _format_code 9 = "P309" /\ _format_code 10 = "P310" /\
  _format_code 72 = "P372".
Proof. repeat split. Qed.

(** ** The file of a device *)

(** X15: for a device whose address formats, [deconfigure] never
    raises: it removes [cfg<address>.xml] under the plugin's directory,
    and the [OSError] of a failed removal ends as one log entry; the
    file it removes is the one [get_remote_state_trigger_filename]
    names, in either of its two definitions. *)
Theorem deconfigure_never_raises
    (format_mac : value -> outcome string) (tftpboot_dir : string)
    (os_remove : string -> option string)
    (device : gmap string value) (mac : value) (fmted : string) :
  device !! "mac" = Some mac -> format_mac mac = Return fmted ->
  let filename := "cfg" +:+ fmted +:+ ".xml" in
  let r := deconfigure format_mac tftpboot_dir os_remove device in
  r.1 = Return tt /\
  (r.2 = [] <-> os_remove (path_join tftpboot_dir filename) = None) /\
  (forall e, os_remove (path_join tftpboot_dir filename) = Some e ->
     r.2 = [Log INFO (VStr "error while removing configuration file: %s") [VStr e]]) /\
  get_remote_state_trigger_filename format_mac device = Return (Some filename) /\
  get_remote_state_trigger_filename_shadowed format_mac device = Return (Some filename).
Proof.
  intros Hmac Hfmt. cbn zeta.
  unfold deconfigure, _remove_configuration_file, get_remote_state_trigger_filename,
    get_remote_state_trigger_filename_shadowed, _dev_specific_filename.
  rewrite Hmac, Hfmt.
  destruct (os_remove _) as [e|]; cbn [fst snd]; repeat split; try discriminate.
  intros e' [= <-]. reflexivity.
Qed.

Lemma deconfigure_never_raises_witness :
  let filename := "cfg" +:+ "000b8240d55c" +:+ ".xml" in
  let r := deconfigure (fun _ => Return "000b8240d55c") "/var/lib/tftpboot/Grandstream"
             (fun _ => Some "[Errno 2] No such file or directory") sample_device in
  r.1 = Return tt /\
  (r.2 = [] <->
   (fun _ : string => Some "[Errno 2] No such file or directory")
     (path_join "/var/lib/tftpboot/Grandstream" filename) = None) /\
  (forall e,
     (fun _ : string => Some "[Errno 2] No such file or directory")
       (path_join "/var/lib/tftpboot/Grandstream" filename) = Some e ->
     r.2 = [Log INFO (VStr "error while removing configuration file: %s") [VStr e]]) /\
  get_remote_state_trigger_filename (fun _ => Return "000b8240d55c") sample_device
    = Return (Some filename) /\
  get_remote_state_trigger_filename_shadowed (fun _ => Return "000b8240d55c") sample_device
    = Return (Some filename).
Proof.
  apply (deconfigure_never_raises (fun _ => Return "000b8240d55c")
           "/var/lib/tftpboot/Grandstream"
           (fun _ => Some "[Errno 2] No such file or directory")
           sample_device (VStr "00:0b:82:40:d5:5c") "000b8240d55c");
    reflexivity.
Defined.

(** X16: when the two checks pass, the enrichment returns and the
    template of the device is found, [configure] hands the template and
    the enriched raw config to [dump] for [cfg<address>.xml] under the
    plugin's directory, the file [deconfigure] removes; its outcome is
    the outcome of [dump], and the raw config it leaves is the enriched
    one. *)
Theorem configure_dumps_enriched
    (format_mac : value -> outcome string)
    (get_dev_template : string -> gmap string value -> outcome value)
    (dump : value -> gmap string value -> string -> outcome unit)
    (tftpboot_dir : string) (device : gmap string value) (st st1 : state)
    (mac tpl : value) (fmted : string) :
  is_Some (raw_config st !! "http_port") ->
  device !! "mac" = Some mac -> format_mac mac = Return fmted ->
  enrich (default VNone (device !! "model")) st = (Return tt, st1) ->
  get_dev_template ("cfg" +:+ fmted +:+ ".xml") device = Return tpl ->
  let r := configure format_mac get_dev_template dump tftpboot_dir device st in
  r.1 = dump tpl (raw_config st1) (path_join tftpboot_dir ("cfg" +:+ fmted +:+ ".xml")) /\
  raw_config r.2 = raw_config st1.
Proof.
  intros [port Hport] Hmac Hfmt Henrich Htpl. cbn zeta.
  assert (Hcfg : _check_config st = (Return tt, st)).
  { unfold _check_config, bind, rc_lookup. rewrite Hport. reflexivity. }
  assert (Hdev : _check_device device st = (Return tt, st)).
  { unfold _check_device. rewrite Hmac. reflexivity. }
  unfold configure.
  rewrite (bind_return _ _ _ _ _ Hcfg), (bind_return _ _ _ _ _ Hdev),
    (bind_return _ _ _ _ _ Henrich).
  unfold render, _dev_specific_filename. rewrite Hmac, Hfmt.
  unfold bind, lift, logger. rewrite Htpl. cbn [raw_config log fst snd].
  destruct (dump _ _ _); split; reflexivity.
Qed.

Lemma configure_dumps_enriched_witness :
  let st := State minimal_config [] in
  let st1 := (enrich (VStr "GXP2160") st).2 in
  let r := configure (fun _ => Return "000b8240d55c") (fun _ _ => Return (VStr "GXP2160.tpl"))
             (fun _ _ _ => Return tt) "/var/lib/tftpboot/Grandstream" sample_device st in
  r.1 = (fun (_ : value) (_ : gmap string value) (_ : string) => Return tt)
          (VStr "GXP2160.tpl") (raw_config st1)
          (path_join "/var/lib/tftpboot/Grandstream" ("cfg" +:+ "000b8240d55c" +:+ ".xml")) /\
  raw_config r.2 = raw_config st1.
Proof.
  intros st st1.
  apply (configure_dumps_enriched (fun _ => Return "000b8240d55c")
           (fun _ _ => Return (VStr "GXP2160.tpl")) (fun _ _ _ => Return tt)
           "/var/lib/tftpboot/Grandstream" sample_device st st1
           (VStr "00:0b:82:40:d5:5c") (VStr "GXP2160.tpl") "000b8240d55c").
  - eexists. reflexivity.
  - reflexivity.
  - reflexivity.
  - vm_compute. reflexivity.
  - reflexivity.
Defined.

(** ** The size of [XX_mpk] *)

Ltac case_all :=
  repeat match goal with
         | |- context [match ?x with _ => _ end] => destruct x eqn:?
         end.

Lemma mpk_emit_bound (d : value) (loc loc' : mpk_locals) (st st' : state) (c : control) :
  mpk_emit d loc st = (Return (c, loc'), st') ->
  (length (lines loc') <= length (lines loc) + 4)%nat.
Proof.
  unfold mpk_emit, bind, lift, logger, ret, raise. case_all;
    intros [= <- <- <-];
    repeat match goal with
           | H : (if ?b then _ else _) _ = _ |- _ => destruct b
           | H : match ?x with _ => _ end = _ |- _ => destruct x eqn:?
           end;
    simplify_eq; cbn [lines]; rewrite ?length_app; cbn [length]; lia.
Qed.

Lemma mpk_step_bound (model : value) (item : string * value) (loc loc' : mpk_locals)
    (st st' : state) (c : control) :
  mpk_step model item loc st = (Return (c, loc'), st') ->
  (length (lines loc') <= length (lines loc) + 4)%nat.
Proof.
  unfold mpk_step. unfold bind at 1, lift at 1.
  destruct (py_int (VStr item.1)) as [i|e]; [|discriminate].
  unfold bind at 1. destruct (mpk_dispatch model i (ids loc) st) as [[d|e] st1]; [|discriminate].
  destruct d.1.
  - intros [= <- <- <-]. cbn [lines]. lia.
  - intros H. apply mpk_emit_bound in H. exact H.
Qed.

Lemma mpk_loop_bound (model : value) (items : list (string * value)) (loc loc' : mpk_locals)
    (st st' : state) :
  mpk_loop model items loc st = (Return loc', st') ->
  (length (lines loc') <= length (lines loc) + 4 * length items)%nat.
Proof.
  revert loc st. induction items as [|item items IH]; intros loc st; cbn [mpk_loop].
  - intros [= <- <-]. lia.
  - unfold bind at 1.
    destruct (mpk_step model item loc st) as [[[c loc1]|e] st1] eqn:Hstep; [|discriminate].
    apply mpk_step_bound in Hstep. cbn [fst snd]. destruct c.
    + intros H. apply IH in H. cbn [length]. lia.
    + intros [= <- <-]. cbn [length]. lia.
Qed.

(** X17: whatever the model and the entries, when [_add_mpk] returns,
    [XX_mpk] holds at most four pairs for each entry of [funckeys]: an
    empty mapping gives the empty list. *)
Theorem add_mpk_size (model : value) (items : list (string * value)) (st st' : state) :
  raw_config st !! "funckeys" = Some (VDict items) ->
  _add_mpk model st = (Return tt, st') ->
  exists ls, raw_config st' !! "XX_mpk" = Some (VList ls) /\
             (length ls <= 4 * length items)%nat.
Proof.
  intros Hfk. unfold _add_mpk, bind, logger, rc_item. cbn [raw_config log]. rewrite Hfk.
  match goal with
  | |- context [mpk_loop ?m ?i ?l ?s] => destruct (mpk_loop m i l s) as [[loc|e] st2] eqn:Hloop
  end; [|discriminate].
  apply mpk_loop_bound in Hloop. cbn [lines length] in Hloop.
  intros [= <-]. exists (lines loc). split; [apply lookup_insert_eq | lia].
Qed.

Lemma add_mpk_size_witness :
  let items := [("1", labelled_key "blf" "1" "Alice" "1001"); ("2", blf_key "1" "1002")] in
  let st := State (<["funckeys" := VDict items]> ∅) [] in
  exists ls, raw_config (_add_mpk (VStr "GXP2170") st).2 !! "XX_mpk" = Some (VList ls) /\
             (length ls <= 4 * length items)%nat.
Proof.
  intros items st.
  apply (add_mpk_size (VStr "GXP2170") items st (_add_mpk (VStr "GXP2170") st).2).
  - reflexivity.
  - vm_compute. reflexivity.
Defined.
